(** * X-Risk-Rank: author-name utilities ([utils.py])

    A shallow embedding of the three functions of [utils.py]

      - [extract_authors]                 (the Extractor),
      - [clean_author_names]              (the Normalizer),
      - [create_author_count_dataframe]   (the Aggregator),

    together with the Python string and list primitives they call.

    A Python [str] is a list of Unicode code points.  What [split()]
    treats as blank is spelled out in full.  The case conversions
    [lower()], [upper()] and [capitalize()] are exact on strings of ASCII
    characters; on other strings they are those of the Unicode character
    database of the Python at hand, which comes in as a parameter [U].
    Whatever is proved for every [U] holds of the interpreter's own tables;
    where a proof needs a fact about them, the fact is a hypothesis.
    Python [int]s are [Z].  Exceptions are explicit: a computation that may
    raise returns a [result]. *)

From Stdlib Require Import String Ascii List NArith ZArith Lia Bool Arith.
From Stdlib Require Import Permutation ZifyBool.
Import ListNotations.
Local Open Scope string_scope.
Local Open Scope list_scope.

(* ================================================================== *)
(** ** Strings                                                         *)
(* ================================================================== *)

Definition char : Type := N.
Definition str : Type := list char.

(** The [str] a literal of ASCII characters stands for. *)
Definition u (literal : string) : str :=
  map N_of_ascii (list_ascii_of_string literal).

Definition str_dec : forall a b : str, {a = b} + {a <> b} :=
  list_eq_dec N.eq_dec.

(** [a == b] on strings. *)
Fixpoint str_eqb (a b : str) : bool :=
  match a, b with
  | [], [] => true
  | x :: a', y :: b' => N.eqb x y && str_eqb a' b'
  | _, _ => false
  end.

(* ================================================================== *)
(** ** Exceptions and the error monad                                  *)
(* ================================================================== *)

(** The two exception classes [utils.py] names in its handlers. *)
Inductive exn : Type :=
| AttributeError (msg : str)
| IndexError (msg : str).

Inductive result (A : Type) : Type :=
| Ok (a : A)
| Raise (e : exn).

Arguments Ok {A} a.
Arguments Raise {A} e.

Definition bind {A B : Type} (m : result A) (k : A -> result B) : result B :=
  match m with
  | Ok a => k a
  | Raise e => Raise e
  end.

Notation "x <- m ;; k" := (bind m (fun x => k))
  (at level 61, m at next level, right associativity).

(** [print(e)] shows the exception's message. *)
Definition exn_message (e : exn) : str :=
  match e with
  | AttributeError m => m
  | IndexError m => m
  end.

(* ================================================================== *)
(** ** Python string primitives                                        *)
(* ================================================================== *)

Module Py.

(** The code points [str.split()] without argument splits on: the
    ASCII blanks (tab, line feed, vertical tab, form feed, carriage return,
    the separators 0x1c..0x1f, space), next line U+0085, no-break space
    U+00A0, ogham space U+1680, the spaces U+2000..U+200A, line and
    paragraph separator U+2028 and U+2029, narrow no-break space U+202F,
    medium mathematical space U+205F and ideographic space U+3000. *)
Definition whitespace : list char :=
  [9; 10; 11; 12; 13; 28; 29; 30; 31; 32; 133; 160; 5760;
   8192; 8193; 8194; 8195; 8196; 8197; 8198; 8199; 8200; 8201; 8202;
   8232; 8233; 8239; 8287; 12288]%N.

Definition isspace (c : char) : bool := existsb (N.eqb c) whitespace.

(** The space character, U+0020. *)
Definition space : char := 32%N.

Definition is_ascii_char (c : char) : bool := (c <? 128)%N.
Definition is_ascii (s : str) : bool := forallb is_ascii_char s.

(** Case conversion of an ASCII character. *)
Definition ascii_lower_char (c : char) : char :=
  if ((65 <=? c) && (c <=? 90))%N then (c + 32)%N else c.

Definition ascii_upper_char (c : char) : char :=
  if ((97 <=? c) && (c <=? 122))%N then (c - 32)%N else c.

Definition ascii_lower (s : str) : str := map ascii_lower_char s.
Definition ascii_upper (s : str) : str := map ascii_upper_char s.

Definition ascii_capitalize (s : str) : str :=
  match s with
  | [] => []
  | c :: r => ascii_upper_char c :: ascii_lower r
  end.

(** The case conversions of the interpreter's Unicode database, as
    functions from strings to strings: a character may turn into several,
    and into different ones at different places of a string. *)
Record unicode : Type := mkUnicode {
  ucd_lower : str -> str;
  ucd_upper : str -> str;
  ucd_capitalize : str -> str
}.

(** [s.lower()], [s.upper()] and [s.capitalize()]. *)
Definition lower (U : unicode) (s : str) : str :=
  if is_ascii s then ascii_lower s else ucd_lower U s.

Definition upper (U : unicode) (s : str) : str :=
  if is_ascii s then ascii_upper s else ucd_upper U s.

Definition capitalize (U : unicode) (s : str) : str :=
  if is_ascii s then ascii_capitalize s else ucd_capitalize U s.

(** [s.replace(old, new)] for a one-character [old]. *)
Fixpoint replace (old : char) (new : str) (s : str) : str :=
  match s with
  | [] => []
  | c :: r =>
      if N.eqb c old then new ++ replace old new r
      else c :: replace old new r
  end.

(** A finished word, if any characters were gathered. *)
Definition flush (cur : str) : list str :=
  match cur with
  | [] => []
  | _ => [cur]
  end.

Fixpoint split_ws (cur : str) (s : str) : list str :=
  match s with
  | [] => flush cur
  | c :: r =>
      if isspace c then flush cur ++ split_ws [] r
      else split_ws (cur ++ [c]) r
  end.

(** [s.split()]: the maximal runs of non-blank characters, in order. *)
Definition split (s : str) : list str := split_ws [] s.

(** [s.startswith(sep)]. *)
Fixpoint starts_with (sep s : str) : bool :=
  match sep, s with
  | [], _ => true
  | _ :: _, [] => false
  | a :: sep', b :: s' => N.eqb a b && starts_with sep' s'
  end.

(** Scanning for a separator from left to right.  [skip] counts the
    characters of a separator just matched that are still to be passed
    over, so that matches never overlap. *)
Fixpoint split_from (sep : str) (skip : nat) (cur : str) (s : str)
  : list str :=
  match s with
  | [] => [cur]
  | c :: r =>
      match skip with
      | S k => split_from sep k cur r
      | O =>
          if starts_with sep s
          then cur :: split_from sep (length sep - 1) [] r
          else split_from sep 0 (cur ++ [c]) r
      end
  end.

(** [s.split(sep)] for a non-empty separator. *)
Definition split_sep (sep : str) (s : str) : list str :=
  split_from sep 0 [] s.

Fixpoint count_from (sep : str) (skip : nat) (s : str) : nat :=
  match s with
  | [] => 0
  | c :: r =>
      match skip with
      | S k => count_from sep k r
      | O =>
          if starts_with sep s
          then S (count_from sep (length sep - 1) r)
          else count_from sep 0 r
      end
  end.

(** [s.count(sub)]: the number of non-overlapping occurrences of a
    non-empty [sub], found from left to right. *)
Definition count (sub : str) (s : str) : nat := count_from sub 0 s.

(** [sep.join(pieces)]. *)
Fixpoint join (sep : str) (pieces : list str) : str :=
  match pieces with
  | [] => []
  | [x] => x
  | x :: xs => x ++ sep ++ join sep xs
  end.

(** [l[i]] on a list, for [i >= 0]. *)
Definition list_index {A : Type} (l : list A) (i : nat) : result A :=
  match nth_error l i with
  | Some a => Ok a
  | None => Raise (IndexError (u "list index out of range"))
  end.

(** [s[0]]: the first character, as a string of length one. *)
Definition str_first (s : str) : result str :=
  match s with
  | c :: _ => Ok [c]
  | [] => Raise (IndexError (u "string index out of range"))
  end.

(** [s[-1]]: the last character, as a string of length one. *)
Fixpoint str_last (s : str) : result str :=
  match s with
  | [] => Raise (IndexError (u "string index out of range"))
  | [c] => Ok [c]
  | _ :: r => str_last r
  end.

(** [s[0:-1]]: everything but the last character; empty on the empty
    string. *)
Fixpoint str_init (s : str) : str :=
  match s with
  | [] => []
  | [_] => []
  | c :: r => c :: str_init r
  end.

End Py.

(* ================================================================== *)
(** ** A sample of the Unicode tables                                  *)
(* ================================================================== *)

(** Some entries of the case tables, for running the functions on names
    beyond ASCII: the letters of Latin-1, the sharp s (which has no single
    upper-case letter: upper-cased it is [SS], title-cased [Ss]) and the
    dotted capital I (lower-cased, an [i] and a combining dot).  Characters
    the sample does not list are left as they are. *)
Definition sample_lower_char (c : char) : str :=
  if ((65 <=? c) && (c <=? 90))%N then [(c + 32)%N]
  else if ((192 <=? c) && (c <=? 222) && negb (c =? 215))%N then [(c + 32)%N]
  else if (c =? 304)%N then [105; 775]%N
  else [c].

Definition sample_upper_char (c : char) : str :=
  if ((97 <=? c) && (c <=? 122))%N then [(c - 32)%N]
  else if ((224 <=? c) && (c <=? 254) && negb (c =? 247))%N then [(c - 32)%N]
  else if (c =? 223)%N then [83; 83]%N
  else if (c =? 255)%N then [376]%N
  else if (c =? 181)%N then [924]%N
  else [c].

Definition sample_title_char (c : char) : str :=
  if (c =? 223)%N then [83; 115]%N else sample_upper_char c.

Definition sample_lower (s : str) : str := flat_map sample_lower_char s.
Definition sample_upper (s : str) : str := flat_map sample_upper_char s.

(** The first character in title case, the rest in lower case. *)
Definition sample_capitalize (s : str) : str :=
  match s with
  | [] => []
  | c :: r => sample_title_char c ++ sample_lower r
  end.

Definition ucd_sample : Py.unicode :=
  Py.mkUnicode sample_lower sample_upper sample_capitalize.

(** Facts about [lower()] that hold of the Unicode tables and that some
    results below rest on: a character never vanishes, no space comes
    out of a string without one, and lower-casing twice is lower-casing
    once. *)
Definition lower_keeps (U : Py.unicode) : Prop :=
  (forall s, length s <= length (Py.lower U s)) /\
  (forall s, ~ In Py.space s -> ~ In Py.space (Py.lower U s)).

Definition lower_idempotent (U : Py.unicode) : Prop :=
  forall s, Py.lower U (Py.lower U s) = Py.lower U s.

(* ================================================================== *)
(** ** Values found in an author list                                  *)
(* ================================================================== *)

(** An element of the list handed to [clean_author_names]: a name read
    from the table is a [str]; a missing cell comes out of pandas as
    [None] or as the float [nan]. *)
Inductive value : Type :=
| VStr (s : str)
| VNone
| VNaN.

(** [name.split()]: only a [str] has the method. *)
Definition value_split (v : value) : result (list str) :=
  match v with
  | VStr s => Ok (Py.split s)
  | VNone =>
      Raise (AttributeError (u "'NoneType' object has no attribute 'split'"))
  | VNaN =>
      Raise (AttributeError (u "'float' object has no attribute 'split'"))
  end.

(** How an f-string renders [{name}]. *)
Definition value_str (v : value) : str :=
  match v with
  | VStr s => s
  | VNone => u "None"
  | VNaN => u "nan"
  end.

(* ================================================================== *)
(** ** extract_authors                                                 *)
(* ================================================================== *)

(** [df['Authors'].str.split(', ').explode().tolist()]: every cell of the
    column is split on [", "], and [explode] lays the pieces out one after
    the other, cell by cell. *)
Definition extract_authors (authors_column : list str) : list str :=
  concat (map (Py.split_sep (u ", ")) authors_column).

(* ================================================================== *)
(** ** clean_author_names                                              *)
(* ================================================================== *)

(** The function's local list and what it has printed so far, one entry
    per [print] call. *)
Record state : Type := mkState {
  cleaned_authors : list str;
  stdout : list str
}.

(** How one pass through the loop body, or the whole loop, ends. *)
Inductive flow : Type :=
| Normal (st : state)      (* fell through, or [continue] *)
| Broke (st : state)       (* left the loop by [break] *)
| Raised (e : exn) (st : state).  (* an exception went uncaught *)

(** The body of the [try] block. *)
Definition try_block (U : Py.unicode) (name : value) : result str :=
  toks <- value_split name ;;
  last_name <- Py.list_index toks 0 ;;
  toks' <- value_split name ;;
  tok <- Py.list_index toks' 1 ;;
  first_initial <- Py.str_first tok ;;
  let cleaned := last_name ++ first_initial in
  Ok (Py.replace Py.space [] (Py.lower U cleaned)).

(** Both handlers do the same: print the exception, print the name,
    [break]. *)
Definition handler (e : exn) (name : value) (st : state) : flow :=
  Broke (mkState (cleaned_authors st)
                 (stdout st ++ [exn_message e; u "Error: " ++ value_str name])).

(** One iteration.  The single-name test comes before the [try], so an
    exception raised by its [name.split()] is not covered by the handlers. *)
Definition loop_body (U : Py.unicode) (name : value) (st : state) : flow :=
  match value_split name with
  | Raise e => Raised e st
  | Ok toks =>
      if Nat.eqb (length toks) 1 then Normal st
      else
        match try_block U name with
        | Ok cleaned =>
            Normal (mkState (cleaned_authors st ++ [cleaned]) (stdout st))
        | Raise (AttributeError m) => handler (AttributeError m) name st
        | Raise (IndexError m) => handler (IndexError m) name st
        end
  end.

Fixpoint for_loop (U : Py.unicode) (author_list : list value) (st : state)
  : flow :=
  match author_list with
  | [] => Normal st
  | name :: rest =>
      match loop_body U name st with
      | Normal st' => for_loop U rest st'
      | Broke st' => Broke st'
      | Raised e st' => Raised e st'
      end
  end.

(** What a caller observes: the value returned or the exception raised,
    and the lines printed. *)
Record outcome : Type := mkOutcome {
  returned : result (list str);
  printed : list str
}.

Definition clean_author_names (U : Py.unicode) (author_list : list value)
  : outcome :=
  match for_loop U author_list (mkState [] []) with
  | Normal st => mkOutcome (Ok (cleaned_authors st)) (stdout st)
  | Broke st => mkOutcome (Ok (cleaned_authors st)) (stdout st)
  | Raised e st => mkOutcome (Raise e) (stdout st)
  end.

(* ================================================================== *)
(** ** create_author_count_dataframe                                   *)
(* ================================================================== *)

(** A Python [dict] from names to counts.  A [dict] keeps its keys in the
    order of their first insertion, which the result depends on, so the
    model is an association list. *)
Definition dict : Type := list (str * Z).

Fixpoint dict_get (d : dict) (k : str) (default : Z) : Z :=
  match d with
  | [] => default
  | (k', v) :: d' => if str_eqb k' k then v else dict_get d' k default
  end.

(** [d[k] = v]: an existing key keeps its place, a new one goes last. *)
Fixpoint dict_set (d : dict) (k : str) (v : Z) : dict :=
  match d with
  | [] => [(k, v)]
  | (k', v') :: d' =>
      if str_eqb k' k then (k', v) :: d'
      else (k', v') :: dict_set d' k v
  end.

Definition dict_keys (d : dict) : list str := map fst d.
Definition dict_values (d : dict) : list Z := map snd d.

(** The first loop: [name_counts[name] = name_counts.get(name, 0) + 1]. *)
Definition count_step (name_counts : dict) (name : str) : dict :=
  dict_set name_counts name (dict_get name_counts name 0 + 1)%Z.

Definition count_names (author_list : list str) : dict :=
  fold_left count_step author_list [].

(** The right-hand side of the tuple assignment and the f-string; the
    slice is evaluated before the index, which raises on an empty name. *)
Definition format_name (U : Py.unicode) (name : str) : result str :=
  let last_name := Py.capitalize U (Py.str_init name) in
  c <- Py.str_last name ;;
  let first_initial := Py.upper U c in
  Ok (first_initial ++ u ". " ++ last_name).

(** The second loop, over [name_counts.items()]. *)
Fixpoint format_loop (U : Py.unicode) (items : dict)
  (formatted_names : list str) : result (list str) :=
  match items with
  | [] => Ok formatted_names
  | (name, _) :: rest =>
      f <- format_name U name ;;
      format_loop U rest (formatted_names ++ [f])
  end.

(** The returned [pandas.DataFrame]: its two columns. *)
Record DataFrame : Type := mkDataFrame {
  Count : list Z;
  Name : list str
}.

Definition rows (df : DataFrame) : list (Z * str) :=
  combine (Count df) (Name df).

Definition create_author_count_dataframe (U : Py.unicode)
  (author_list : list str) : result DataFrame :=
  let name_counts := count_names author_list in
  formatted_names <- format_loop U name_counts [] ;;
  Ok (mkDataFrame (dict_values name_counts) formatted_names).

Arguments u : simpl never.

(* ================================================================== *)
(** ** Notions the specification speaks of                             *)
(* ================================================================== *)

Definition not_blank (c : char) : bool := negb (Py.isspace c).

(** The names that split into at least two words. *)
Definition two_words (s : str) : bool :=
  (2 <=? length (Py.split s))%nat.

(** The canonical key of the specification: the first word followed by
    the first character of the second, lower-cased, spaces removed. *)
Definition canonical_key (U : Py.unicode) (last_name : str) (initial : char)
  : str :=
  Py.replace Py.space [] (Py.lower U (last_name ++ [initial])).

(** A word, as [split()] yields them: never empty, and without blank. *)
Definition is_word (t : str) : Prop :=
  t <> [] /\ forallb not_blank t = true.

(** The keys one name contributes: one if it has two words or more, none
    otherwise. *)
Definition name_keys (U : Py.unicode) (s : str) : list str :=
  match Py.split s with
  | last_name :: (c :: _) :: _ => [canonical_key U last_name c]
  | _ => []
  end.

(** The state a loop, or one pass of it, ended in. *)
Definition flow_state (f : flow) : state :=
  match f with
  | Normal st => st
  | Broke st => st
  | Raised _ st => st
  end.

(** What the Aggregator assumes of a key, as the Normalizer's output has
    to meet it: at least two characters, unchanged by [lower()], no
    space. *)
Definition aggregator_ready (U : Py.unicode) (k : str) : Prop :=
  k <> [] /\
  (2 <= length k)%nat /\
  Py.lower U k = k /\
  ~ In Py.space k.

(** The distinct elements of a list, each at its first occurrence. *)
Fixpoint first_seen (l : list str) : list str :=
  match l with
  | [] => []
  | x :: r => x :: filter (fun y => negb (str_eqb y x)) (first_seen r)
  end.

(** The dictionary that lists the keys [K], each with the value [f]
    gives it. *)
Definition table (f : str -> Z) (K : list str) : dict :=
  map (fun k => (k, f k)) K.

(** How often [k] occurs in [l], as a Python integer. *)
Definition occurrences (k : str) (l : list str) : Z :=
  Z.of_nat (count_occ str_dec l k).

Definition sum_Z (l : list Z) : Z := fold_right Z.add 0%Z l.

(** A well-formed key in the sense of testable property 6: lower-case and
    of at least two characters. *)
Definition well_formed_key (U : Py.unicode) (k : str) : Prop :=
  Py.lower U k = k /\ (2 <= length k)%nat.

(** The reverse of the display format ["<I>. <Last>"], as testable
    property 6 describes it (it is not part of [utils.py]): the last-name
    part followed by the initial, lower-cased. *)
Definition key_of_display_name (U : Py.unicode) (d : str) : str :=
  match d with
  | i :: 46%N :: 32%N :: last => Py.lower U (last ++ [i])
  | _ => d
  end.

(** The key list an aggregated table stands for: every row's key,
    re-derived from its display name, as often as the row counts it. *)
Definition keys_of_table (U : Py.unicode) (t : list (Z * str)) : list str :=
  flat_map (fun row => repeat (key_of_display_name U (snd row))
                              (Z.to_nat (fst row))) t.

(** The names of a list of strings that come before the first one
    without any word, and that one. *)
Fixpoint until_wordless (l : list str) : list str :=
  match l with
  | [] => []
  | s :: r =>
      match Py.split s with
      | [] => []
      | _ => s :: until_wordless r
      end
  end.

Fixpoint first_wordless (l : list str) : option str :=
  match l with
  | [] => None
  | s :: r =>
      match Py.split s with
      | [] => Some s
      | _ => first_wordless r
      end
  end.

(** The two lines the [IndexError] handler prints for the name [s]. *)
Definition diagnostic (s : str) : list str :=
  [u "list index out of range"; u "Error: " ++ s].

(** [sep] occurs nowhere in [p]. *)
Definition free_of (sep p : str) : Prop :=
  forall a b, p = a ++ b -> Py.starts_with sep b = false.

(** While a piece is gathered, the separator starts at none of its
    positions -- it was looked for at each of them. *)
Definition gathered (sep cur s : str) : Prop :=
  forall a b, cur = a ++ b -> b <> [] -> Py.starts_with sep (b ++ s) = false.

(** The display name of a key, where [format_name] yields one. *)
Definition display_name (U : Py.unicode) (k : str) : str :=
  match format_name U k with
  | Ok n => n
  | Raise _ => []
  end.

(** A string value all of whose characters are ASCII. *)
Definition ascii_name (v : value) : Prop :=
  exists s, v = VStr s /\ Py.is_ascii s = true.

(* ================================================================== *)
(** ** Smoke tests                                                     *)
(* ================================================================== *)

Example split_two : Py.split (u "  Doe   J. ") = [u "Doe"; u "J."].
Proof. reflexivity. Qed.

(** A no-break space separates words, an em space alone is no word. *)
Example split_no_break_space :
  Py.split (u "Doe" ++ [160%N] ++ u "J.") = [u "Doe"; u "J."] /\
  Py.split [8195%N] = [].
Proof. split; reflexivity. Qed.

Example split_sep_three :
  Py.split_sep (u ", ") (u "John Doe, Jane Smith,, Adam") =
  [u "John Doe"; u "Jane Smith,"; u "Adam"].
Proof. reflexivity. Qed.

Example extract_docstring :
  extract_authors [u "John Doe, Jane Smith, Adam Johnson";
                   u "Alice Williams, Bob Brown"] =
  [u "John Doe"; u "Jane Smith"; u "Adam Johnson"; u "Alice Williams";
   u "Bob Brown"].
Proof. reflexivity. Qed.

Example first_seen_dups :
  first_seen [u "b"; u "a"; u "b"; u "c"; u "a"] = [u "b"; u "a"; u "c"].
Proof. reflexivity. Qed.

(** With the sample tables: [Doe Emile] with an acute capital E is keyed
    with the small letter, and shown with the capital again. *)
Example clean_latin1 :
  clean_author_names ucd_sample [VStr (u "Doe " ++ [201%N] ++ u "mile")] =
  mkOutcome (Ok [u "doe" ++ [233%N]]) [] /\
  create_author_count_dataframe ucd_sample [u "doe" ++ [233%N]] =
  Ok (mkDataFrame [1%Z] [[201%N] ++ u ". Doe"]).
Proof. split; reflexivity. Qed.

(* ================================================================== *)
(** ** Characters and strings                                          *)
(* ================================================================== *)

Ltac by_char_cases :=
  unfold Py.ascii_lower_char, Py.ascii_upper_char, Py.is_ascii_char,
         sample_lower_char, sample_upper_char, sample_title_char;
  repeat match goal with
    | |- context [if ?b then _ else _] =>
        let E := fresh "E" in destruct b eqn:E
    end;
  try reflexivity; try (f_equal; lia); try lia.

Lemma str_eqb_spec a : forall b, reflect (a = b) (str_eqb a b).
Proof.
  induction a as [|x a IH]; intros [|y b]; simpl;
    try (constructor; congruence).
  destruct (N.eqb_spec x y) as [->|N]; simpl.
  - destruct (IH b) as [->|N']; constructor; congruence.
  - constructor. congruence.
Qed.

Lemma str_eqb_refl a : str_eqb a a = true.
Proof. now destruct (str_eqb_spec a a). Qed.

Lemma str_eqb_neq a b : str_eqb a b = false <-> a <> b.
Proof. destruct (str_eqb_spec a b); split; congruence. Qed.

Lemma isspace_In c : Py.isspace c = true <-> In c Py.whitespace.
Proof.
  unfold Py.isspace. rewrite existsb_exists. split.
  - intros (x & I & E). apply N.eqb_eq in E. now subst.
  - intros I. exists c. split; [exact I | apply N.eqb_refl].
Qed.

Lemma isspace_space : Py.isspace Py.space = true.
Proof. reflexivity. Qed.

Lemma not_blank_not_space c : not_blank c = true -> c <> Py.space.
Proof. intros H ->. discriminate. Qed.

Lemma ascii_lower_char_idem c :
  Py.ascii_lower_char (Py.ascii_lower_char c) = Py.ascii_lower_char c.
Proof. by_char_cases. Qed.

Lemma ascii_lower_upper_char c :
  Py.ascii_lower_char (Py.ascii_upper_char c) = Py.ascii_lower_char c.
Proof. by_char_cases. Qed.

Lemma ascii_upper_lower_char c :
  Py.ascii_upper_char (Py.ascii_lower_char c) = Py.ascii_upper_char c.
Proof. by_char_cases. Qed.

Lemma is_ascii_lower_char c :
  Py.is_ascii_char (Py.ascii_lower_char c) = Py.is_ascii_char c.
Proof. by_char_cases. Qed.

Lemma is_ascii_upper_char c :
  Py.is_ascii_char (Py.ascii_upper_char c) = Py.is_ascii_char c.
Proof. by_char_cases. Qed.

Lemma ascii_lower_char_space c :
  Py.ascii_lower_char c = Py.space -> c = Py.space.
Proof. unfold Py.space. by_char_cases. Qed.

Lemma isspace_ascii_lower_char c :
  Py.isspace (Py.ascii_lower_char c) = Py.isspace c.
Proof.
  unfold Py.ascii_lower_char.
  destruct ((65 <=? c) && (c <=? 90))%N eqn:E; [|reflexivity].
  assert (A : Py.isspace c = false).
  { apply not_true_is_false. rewrite isspace_In. simpl. lia. }
  rewrite A. apply not_true_is_false. rewrite isspace_In. simpl. lia.
Qed.

Lemma ascii_lower_idem s : Py.ascii_lower (Py.ascii_lower s) = Py.ascii_lower s.
Proof.
  unfold Py.ascii_lower. rewrite map_map. apply map_ext.
  apply ascii_lower_char_idem.
Qed.

Lemma is_ascii_app a b :
  Py.is_ascii (a ++ b) = Py.is_ascii a && Py.is_ascii b.
Proof. apply forallb_app. Qed.

Lemma is_ascii_lower s : Py.is_ascii (Py.ascii_lower s) = Py.is_ascii s.
Proof.
  induction s as [|c r IH]; simpl; [reflexivity|].
  now rewrite is_ascii_lower_char, IH.
Qed.

Lemma is_ascii_capitalize s :
  Py.is_ascii (Py.ascii_capitalize s) = Py.is_ascii s.
Proof.
  destruct s as [|c r]; simpl; [reflexivity|].
  now rewrite is_ascii_upper_char, is_ascii_lower.
Qed.

(** On ASCII strings the case conversions do not consult the tables. *)
Lemma lower_ascii U s : Py.is_ascii s = true -> Py.lower U s = Py.ascii_lower s.
Proof. unfold Py.lower. now intros ->. Qed.

Lemma upper_ascii U s : Py.is_ascii s = true -> Py.upper U s = Py.ascii_upper s.
Proof. unfold Py.upper. now intros ->. Qed.

Lemma capitalize_ascii U s :
  Py.is_ascii s = true -> Py.capitalize U s = Py.ascii_capitalize s.
Proof. unfold Py.capitalize. now intros ->. Qed.

Lemma ascii_lower_capitalize s :
  Py.ascii_lower (Py.ascii_capitalize s) = Py.ascii_lower s.
Proof.
  destruct s as [|c r]; simpl; [reflexivity|].
  now rewrite ascii_lower_upper_char, ascii_lower_idem.
Qed.

Lemma ascii_capitalize_lower s :
  Py.ascii_capitalize (Py.ascii_lower s) = Py.ascii_capitalize s.
Proof.
  destruct s as [|c r]; simpl; [reflexivity|].
  now rewrite ascii_upper_lower_char, ascii_lower_idem.
Qed.

(** Removing what is not there removes nothing; and whatever was there
    is gone. *)
Lemma replace_absent old s : ~ In old s -> Py.replace old [] s = s.
Proof.
  induction s as [|c r IH]; simpl; intros H; [reflexivity|].
  destruct (N.eqb_spec c old) as [->|_]; [tauto|].
  f_equal. apply IH. tauto.
Qed.

Lemma replace_removes old s : ~ In old (Py.replace old [] s).
Proof.
  induction s as [|c r IH]; simpl; [tauto|].
  destruct (N.eqb_spec c old) as [->|N]; [exact IH|].
  simpl. intros [E|I]; [congruence | tauto].
Qed.

Lemma no_blank_no_space s : forallb not_blank s = true -> ~ In Py.space s.
Proof.
  rewrite forallb_forall. intros H I. specialize (H _ I). discriminate.
Qed.

(* ================================================================== *)
(** ** Words                                                           *)
(* ================================================================== *)

Lemma flush_words cur :
  forallb not_blank cur = true -> Forall is_word (Py.flush cur).
Proof.
  destruct cur as [|c r]; simpl; intros H; constructor; [|constructor].
  split; [discriminate | exact H].
Qed.

Lemma split_ws_words s : forall cur,
  forallb not_blank cur = true -> Forall is_word (Py.split_ws cur s).
Proof.
  induction s as [|c r IH]; simpl; intros cur Hcur.
  - now apply flush_words.
  - destruct (Py.isspace c) eqn:Hc.
    + apply Forall_app. split; [now apply flush_words | now apply IH].
    + apply IH. rewrite forallb_app, Hcur. simpl.
      unfold not_blank. now rewrite Hc.
Qed.

Lemma split_words s : Forall is_word (Py.split s).
Proof. now apply split_ws_words. Qed.

Lemma second_word_has_initial s t0 t1 more :
  Py.split s = t0 :: t1 :: more ->
  exists c r, t1 = c :: r /\ is_word t0 /\ not_blank c = true.
Proof.
  intros E. pose proof (split_words s) as W. rewrite E in W.
  inversion W as [|? ? W0 W']; subst. inversion W' as [|? ? W1 _]; subst.
  destruct W1 as [Hne Hnb]. destruct t1 as [|c r]; [congruence|].
  exists c, r. simpl in Hnb. apply andb_true_iff in Hnb. now intuition.
Qed.

Lemma word_snoc_no_space t0 c :
  is_word t0 -> not_blank c = true -> ~ In Py.space (t0 ++ [c]).
Proof.
  intros [_ Hnb] Hc. apply no_blank_no_space.
  rewrite forallb_app, Hnb. simpl. now rewrite Hc.
Qed.

(** Where [lower()] keeps the text, the key of a name is the lower-cased
    text itself, of two characters at least. *)
Lemma canonical_key_kept U t0 c :
  lower_keeps U -> is_word t0 -> not_blank c = true ->
  canonical_key U t0 c = Py.lower U (t0 ++ [c]) /\
  (2 <= length (canonical_key U t0 c))%nat /\
  ~ In Py.space (canonical_key U t0 c).
Proof.
  intros [Hlen Hsp] W Hc.
  pose proof (Hsp _ (word_snoc_no_space _ _ W Hc)) as S.
  assert (E : canonical_key U t0 c = Py.lower U (t0 ++ [c]))
    by (unfold canonical_key; now apply replace_absent).
  split; [exact E|]. rewrite E. split; [|exact S].
  pose proof (Hlen (t0 ++ [c])) as L. rewrite length_app in L.
  cbn [length] in L.
  assert (1 <= length t0)%nat
    by (destruct W as [Hne _]; destruct t0; [congruence | simpl; lia]).
  lia.
Qed.

Lemma canonical_key_ready U t0 c :
  lower_keeps U -> lower_idempotent U -> is_word t0 -> not_blank c = true ->
  aggregator_ready U (canonical_key U t0 c).
Proof.
  intros K I W Hc. destruct (canonical_key_kept U t0 c K W Hc) as (E & L & S).
  repeat split; try assumption.
  - intros Z. rewrite Z in L. simpl in L. lia.
  - rewrite E. apply I.
Qed.

(* ================================================================== *)
(** ** The loop of clean_author_names                                  *)
(* ================================================================== *)

Lemma for_loop_app U pre post : forall st,
  for_loop U (pre ++ post) st =
  match for_loop U pre st with
  | Normal st' => for_loop U post st'
  | other => other
  end.
Proof.
  induction pre as [|v pre IH]; simpl; intros st; [reflexivity|].
  destruct (loop_body U v st); auto.
Qed.

(** A name with no word at all: [name.split()[0]] raises inside the
    [try], the [IndexError] handler prints and breaks. *)
Lemma loop_body_no_word U s st :
  Py.split s = [] ->
  loop_body U (VStr s) st =
  Broke (mkState (cleaned_authors st)
           (stdout st ++ [u "list index out of range"; u "Error: " ++ s])).
Proof.
  intros E. unfold loop_body, try_block. simpl. now rewrite E.
Qed.

(** A name of one word: [continue]. *)
Lemma loop_body_one_word U s st :
  length (Py.split s) = 1 -> loop_body U (VStr s) st = Normal st.
Proof.
  intros E. unfold loop_body. simpl. now rewrite E.
Qed.

(** A name of two words or more: its key is appended. *)
Lemma loop_body_two_words U s st t0 c r more :
  Py.split s = t0 :: (c :: r) :: more ->
  loop_body U (VStr s) st =
  Normal (mkState (cleaned_authors st ++ [canonical_key U t0 c]) (stdout st)).
Proof.
  intros E. unfold loop_body, try_block. simpl. now rewrite E.
Qed.

(** All three cases of a string at once. *)
Lemma loop_body_string U s st :
  loop_body U (VStr s) st =
  match Py.split s with
  | [] => Broke (mkState (cleaned_authors st) (stdout st ++ diagnostic s))
  | _ => Normal (mkState (cleaned_authors st ++ name_keys U s) (stdout st))
  end.
Proof.
  destruct (Py.split s) as [|t0 [|t1 more]] eqn:E.
  - now apply loop_body_no_word.
  - rewrite loop_body_one_word by now rewrite E.
    unfold name_keys. rewrite E, app_nil_r. now destruct st.
  - destruct (second_word_has_initial _ _ _ _ E) as (c & r & -> & _ & _).
    rewrite (loop_body_two_words _ _ _ _ _ _ _ E). unfold name_keys.
    now rewrite E.
Qed.

Lemma loop_body_not_string U v st :
  (forall s, v <> VStr s) ->
  exists m, loop_body U v st = Raised (AttributeError m) st.
Proof.
  intros H. destruct v; [now destruct (H s) | |]; eexists; reflexivity.
Qed.

(** The loop on strings, in full: it runs up to the first wordless name
    and breaks there. *)
Lemma for_loop_strings_any U l : forall st,
  for_loop U (map VStr l) st =
  match first_wordless l with
  | None =>
      Normal (mkState
                (cleaned_authors st ++ flat_map (name_keys U) (until_wordless l))
                (stdout st))
  | Some s =>
      Broke (mkState
               (cleaned_authors st ++ flat_map (name_keys U) (until_wordless l))
               (stdout st ++ diagnostic s))
  end.
Proof.
  induction l as [|s l IH]; simpl; intros st.
  - rewrite app_nil_r. now destruct st.
  - rewrite loop_body_string. destruct (Py.split s) eqn:E.
    + simpl. now rewrite app_nil_r.
    + rewrite IH. simpl. rewrite <- app_assoc.
      destruct (first_wordless l); reflexivity.
Qed.

(** A list of strings none of which is wordless runs to its end. *)
Lemma for_loop_strings U l : forall st,
  Forall (fun s => Py.split s <> []) l ->
  for_loop U (map VStr l) st =
  Normal (mkState (cleaned_authors st ++ flat_map (name_keys U) l) (stdout st)).
Proof.
  induction l as [|s l IH]; simpl; intros st H.
  - rewrite app_nil_r. now destruct st.
  - inversion H as [|? ? Hs Hl]; subst.
    rewrite loop_body_string. destruct (Py.split s) eqn:E; [congruence|].
    rewrite IH by assumption. simpl. now rewrite <- app_assoc.
Qed.

Lemma for_loop_strings_normal U l : forall st st',
  for_loop U (map VStr l) st = Normal st' ->
  Forall (fun s => Py.split s <> []) l.
Proof.
  induction l as [|s l IH]; simpl; intros st st' H; constructor.
  - intros E. rewrite (loop_body_no_word _ _ _ E) in H. discriminate.
  - destruct (loop_body U (VStr s) st) eqn:B; try discriminate. eauto.
Qed.

(** Nothing is printed as long as the loop goes on. *)
Lemma for_loop_normal_silent U l : forall st st',
  for_loop U l st = Normal st' -> stdout st' = stdout st.
Proof.
  induction l as [|v l IH]; simpl; intros st st' H.
  - now inversion H.
  - destruct (loop_body U v st) eqn:B; try discriminate.
    rewrite (IH _ _ H). destruct v; simpl in B; try discriminate.
    rewrite loop_body_string in B. destruct (Py.split s); now inversion B.
Qed.

(** A name yields one key at most. *)
Lemma name_keys_length U s : (length (name_keys U s) <= 1)%nat.
Proof.
  unfold name_keys. destruct (Py.split s) as [|t0 [|[|c r] more]]; simpl; lia.
Qed.

(** What holds of the key of any two words holds of every key a name
    yields. *)
Lemma name_keys_all U (P : str -> Prop) s :
  (forall t0 c, is_word t0 -> not_blank c = true -> P (canonical_key U t0 c)) ->
  Forall P (name_keys U s).
Proof.
  intros H. unfold name_keys.
  destruct (Py.split s) as [|t0 [|t1 more]] eqn:E; try constructor.
  destruct (second_word_has_initial _ _ _ _ E) as (c & r & -> & W & Hc).
  constructor; [now apply H | constructor].
Qed.

(** The keys gathered: what holds of the keys of each string of the list
    holds of all that the loop appends, and it appends one at most for
    each element. *)
Lemma for_loop_keys U (P : str -> Prop) l : forall st,
  (forall s, In (VStr s) l -> Forall P (name_keys U s)) ->
  Forall P (cleaned_authors st) ->
  Forall P (cleaned_authors (flow_state (for_loop U l st))) /\
  (length (cleaned_authors (flow_state (for_loop U l st)))
     <= length l + length (cleaned_authors st))%nat.
Proof.
  induction l as [|v l IH]; simpl; intros st HP H; [split; [assumption | lia]|].
  destruct v as [s| |]; try (simpl; split; [assumption | lia]).
  rewrite loop_body_string. pose proof (name_keys_length U s) as L.
  destruct (Py.split s); simpl; [split; [assumption | lia]|].
  destruct (IH (mkState (cleaned_authors st ++ name_keys U s) (stdout st)))
    as [R L'].
  - intros s' I. apply HP. now right.
  - simpl. apply Forall_app. split; [assumption|]. apply HP. now left.
  - split; [exact R|]. simpl in L'. rewrite length_app in L'. lia.
Qed.

(* ================================================================== *)
(** ** clean_author_names: main results                                *)
(* ================================================================== *)

(** The key of a name of two words or more, as the specification words
    it. *)
Lemma name_keys_spec U l :
  Forall2 (fun s k => exists t0 c r more,
             Py.split s = t0 :: (c :: r) :: more /\ k = canonical_key U t0 c)
          (filter two_words l) (flat_map (name_keys U) l).
Proof.
  induction l as [|s l IH]; simpl; [constructor|].
  unfold two_words, name_keys at 1.
  destruct (Py.split s) as [|t0 [|t1 more]] eqn:E; simpl; try assumption.
  destruct (second_word_has_initial _ _ _ _ E) as (c & r & -> & _ & _).
  simpl. constructor; [|assumption]. now exists t0, c, r, more.
Qed.

(** C1 (what the code does instead): a name that is not a string --
    [None] or a float -- has no [split] method, and the single-name test
    calls [name.split()] before the [try] block is entered.  When the loop
    reaches such a name the [AttributeError] therefore leaves
    [clean_author_names]: nothing is printed, no list is returned, and the
    [except AttributeError] handler is never run. *)
Theorem clean_author_names_non_string_raises :
  forall U pre v post st,
    for_loop U pre (mkState [] []) = Normal st ->
    (forall s, v <> VStr s) ->
    exists m,
      clean_author_names U (pre ++ v :: post) =
      mkOutcome (Raise (AttributeError m)) [].
Proof.
  intros U pre v post st Hpre Hv.
  destruct (loop_body_not_string U v st Hv) as [m Hm]. exists m.
  unfold clean_author_names. rewrite for_loop_app, Hpre. simpl. rewrite Hm.
  simpl. f_equal. apply (for_loop_normal_silent _ _ _ _ Hpre).
Qed.

Lemma clean_author_names_non_string_raises_witness :
  for_loop ucd_sample [VStr (u "Doe J.")] (mkState [] []) =
    Normal (mkState [u "doej"] []) /\
  (forall s, VNone <> VStr s) /\
  exists m,
    clean_author_names ucd_sample
      ([VStr (u "Doe J.")] ++ VNone :: [VStr (u "Smith J.")]) =
    mkOutcome (Raise (AttributeError m)) [].
Proof.
  split; [reflexivity|]. split; [discriminate|].
  apply (clean_author_names_non_string_raises ucd_sample
           [VStr (u "Doe J.")] VNone [VStr (u "Smith J.")]
           (mkState [u "doej"] []));
    [reflexivity | discriminate].
Defined.

(** C2, as stated, fails: on [["Doe "]] no diagnostic is emitted and the
    loop is not left by [break]. *)
Lemma doe_space_does_not_halt :
  ~ (returned (clean_author_names ucd_sample [VStr (u "Doe ")]) = Ok [] /\
     printed (clean_author_names ucd_sample [VStr (u "Doe ")]) <> [] /\
     exists st,
       for_loop ucd_sample [VStr (u "Doe ")] (mkState [] []) = Broke st).
Proof.
  intros (_ & H & _). apply H. reflexivity.
Qed.

(** C2 (amended): the name ["Doe "] splits into the single word ["Doe"]
    -- a trailing blank yields no empty word -- so it is the single-name
    case: [clean_author_names] skips it without a diagnostic, returns the
    empty list on [["Doe "]], and goes on with whatever names follow. *)
Theorem doe_space_is_skipped :
  forall U,
    Py.split (u "Doe ") = [u "Doe"] /\
    clean_author_names U [VStr (u "Doe ")] = mkOutcome (Ok []) [] /\
    forall rest,
      clean_author_names U (VStr (u "Doe ") :: rest) =
      clean_author_names U rest.
Proof.
  intros U. split; [reflexivity|]. split; [reflexivity|].
  intros rest. reflexivity.
Qed.

(** C4: on a list of strings that the loop runs through without [break],
    [clean_author_names] returns, in input order, one key for each name
    of at least two words: the first word followed by the first character
    of the second, lower-cased, with spaces removed.  Nothing is printed.
    In particular ["Doe J."; "Smith J."; "Johnson A."] gives
    ["doej"; "smithj"; "johnsona"]. *)
Theorem clean_author_names_keys :
  forall U,
    (forall (l : list str) st,
       for_loop U (map VStr l) (mkState [] []) = Normal st ->
       exists ks,
         clean_author_names U (map VStr l) = mkOutcome (Ok ks) [] /\
         Forall2 (fun s k => exists t0 c r more,
                    Py.split s = t0 :: (c :: r) :: more /\
                    k = Py.replace Py.space [] (Py.lower U (t0 ++ [c])))
                 (filter two_words l) ks) /\
    clean_author_names U
      [VStr (u "Doe J."); VStr (u "Smith J."); VStr (u "Johnson A.")] =
    mkOutcome (Ok [u "doej"; u "smithj"; u "johnsona"]) [].
Proof.
  intros U. split; [|reflexivity]. intros l st H.
  pose proof (for_loop_strings_normal _ _ _ _ H) as W.
  exists (flat_map (name_keys U) l). split.
  - unfold clean_author_names. now rewrite (for_loop_strings _ _ _ W).
  - apply name_keys_spec.
Qed.

Lemma clean_author_names_keys_witness :
  for_loop ucd_sample
    (map VStr [u "Doe" ++ [160%N] ++ u "J."; u "Madonna";
               u "Doe " ++ [201%N] ++ u "mile"])
    (mkState [] []) =
    Normal (mkState [u "doej"; u "doe" ++ [233%N]] []) /\
  exists ks,
    clean_author_names ucd_sample
      (map VStr [u "Doe" ++ [160%N] ++ u "J."; u "Madonna";
                 u "Doe " ++ [201%N] ++ u "mile"]) =
      mkOutcome (Ok ks) [] /\
    Forall2 (fun s k => exists t0 c r more,
               Py.split s = t0 :: (c :: r) :: more /\
               k = Py.replace Py.space [] (Py.lower ucd_sample (t0 ++ [c])))
            (filter two_words [u "Doe" ++ [160%N] ++ u "J."; u "Madonna";
                               u "Doe " ++ [201%N] ++ u "mile"]) ks.
Proof.
  split; [reflexivity|].
  exact (proj1 (clean_author_names_keys ucd_sample)
           [u "Doe" ++ [160%N] ++ u "J."; u "Madonna";
            u "Doe " ++ [201%N] ++ u "mile"] _ eq_refl).
Defined.

(** C5: a name that splits into exactly one word is dropped without a
    trace: the call returns and prints exactly what it would without that
    name, whatever comes before and after it.  In particular
    ["SingleName"; "Doe J."] gives ["doej"] and prints nothing. *)
Theorem clean_author_names_skips_single :
  forall U,
    (forall s pre post,
       length (Py.split s) = 1 ->
       clean_author_names U (pre ++ VStr s :: post) =
       clean_author_names U (pre ++ post)) /\
    clean_author_names U [VStr (u "SingleName"); VStr (u "Doe J.")] =
    mkOutcome (Ok [u "doej"]) [].
Proof.
  intros U. split; [|reflexivity]. intros s pre post H.
  unfold clean_author_names. rewrite !for_loop_app.
  destruct (for_loop U pre (mkState [] [])) as [st|st|e st]; try reflexivity.
  simpl. now rewrite (loop_body_one_word _ _ _ H).
Qed.

Lemma clean_author_names_skips_single_witness :
  length (Py.split (u "SingleName")) = 1 /\
  clean_author_names ucd_sample
    ([VStr (u "Smith J.")] ++ VStr (u "SingleName") :: [VStr (u "Doe J.")]) =
  clean_author_names ucd_sample ([VStr (u "Smith J.")] ++ [VStr (u "Doe J.")]).
Proof.
  split; [reflexivity|].
  exact (proj1 (clean_author_names_skips_single ucd_sample)
           (u "SingleName") [VStr (u "Smith J.")] [VStr (u "Doe J.")] eq_refl).
Defined.

(** C9: when the loop reaches a string without any word -- the empty
    string, or blanks only, of whatever kind [split()] knows --
    [name.split()[0]] raises [IndexError] inside the [try]; the handler
    prints the exception and the name and breaks.  The call returns the
    keys gathered before that name and none of the later ones; the name is
    not filtered out. *)
Theorem clean_author_names_halts_on_wordless :
  forall U pre s post st,
    Py.split s = [] ->
    for_loop U pre (mkState [] []) = Normal st ->
    for_loop U (pre ++ VStr s :: post) (mkState [] []) =
      Broke (mkState (cleaned_authors st)
               [u "list index out of range"; u "Error: " ++ s]) /\
    clean_author_names U pre = mkOutcome (Ok (cleaned_authors st)) [] /\
    clean_author_names U (pre ++ VStr s :: post) =
      mkOutcome (Ok (cleaned_authors st))
                [u "list index out of range"; u "Error: " ++ s].
Proof.
  intros U pre s post st Hs Hpre.
  pose proof (for_loop_normal_silent _ _ _ _ Hpre) as Hout. simpl in Hout.
  assert (E : for_loop U (pre ++ VStr s :: post) (mkState [] []) =
              Broke (mkState (cleaned_authors st)
                       [u "list index out of range"; u "Error: " ++ s])).
  { rewrite for_loop_app, Hpre. simpl.
    rewrite (loop_body_no_word _ _ _ Hs), Hout. reflexivity. }
  split; [exact E|]. unfold clean_author_names. rewrite E, Hpre, Hout.
  split; reflexivity.
Qed.

Lemma clean_author_names_halts_on_wordless_witness :
  Py.split [160%N; 8195%N] = [] /\
  for_loop ucd_sample [VStr (u "Doe J.")] (mkState [] []) =
    Normal (mkState [u "doej"] []) /\
  clean_author_names ucd_sample
    ([VStr (u "Doe J.")] ++ VStr [160%N; 8195%N] :: [VStr (u "Smith J.")]) =
    mkOutcome (Ok [u "doej"])
              [u "list index out of range"; u "Error: " ++ [160%N; 8195%N]].
Proof.
  split; [reflexivity|]. split; [reflexivity|].
  exact (proj2 (proj2 (clean_author_names_halts_on_wordless ucd_sample
           [VStr (u "Doe J.")] [160%N; 8195%N] [VStr (u "Smith J.")]
           (mkState [u "doej"] []) eq_refl eq_refl))).
Defined.

Lemma clean_author_names_returned U (P : str -> Prop) l ks :
  (forall s, In (VStr s) l -> Forall P (name_keys U s)) ->
  returned (clean_author_names U l) = Ok ks ->
  Forall P ks /\ (length ks <= length l)%nat.
Proof.
  intros HP H.
  destruct (for_loop_keys U P l (mkState [] []) HP (Forall_nil _)) as [R L].
  unfold clean_author_names in H. simpl in L.
  destruct (for_loop U l (mkState [] [])) as [st|st|e st]; simpl in *;
    try discriminate; inversion H; subst; split; try assumption; lia.
Qed.

(** C10: whenever [clean_author_names] returns a list, every string in
    it is non-empty, has at least two characters, is unchanged by
    [lower()] and holds no space; and the list is no longer than the
    input.  This rests on three facts about [lower()]: it lets no
    character vanish, brings no space into a string that had none, and
    changes nothing when applied a second time. *)
Theorem clean_author_names_output_ready :
  forall U l ks,
    lower_keeps U -> lower_idempotent U ->
    returned (clean_author_names U l) = Ok ks ->
    Forall (aggregator_ready U) ks /\ (length ks <= length l)%nat.
Proof.
  intros U l ks K I H.
  apply (clean_author_names_returned U (aggregator_ready U) l ks); [|exact H].
  intros s _. apply name_keys_all. intros t0 c W Hc.
  now apply canonical_key_ready.
Qed.

(** *** The sample tables have what the result asks of [lower()] *)

Lemma sample_lower_char_ascii c :
  Py.is_ascii_char c = true -> sample_lower_char c = [Py.ascii_lower_char c].
Proof. by_char_cases. Qed.

Lemma sample_lower_ascii s :
  Py.is_ascii s = true -> sample_lower s = Py.ascii_lower s.
Proof.
  induction s as [|c r IH]; simpl; intros H; [reflexivity|].
  apply andb_true_iff in H. destruct H as [Hc Hr].
  now rewrite (sample_lower_char_ascii _ Hc), (IH Hr).
Qed.

Lemma lower_sample s : Py.lower ucd_sample s = sample_lower s.
Proof.
  unfold Py.lower. destruct (Py.is_ascii s) eqn:A; [|reflexivity].
  symmetry. now apply sample_lower_ascii.
Qed.

Lemma sample_lower_char_length c : (1 <= length (sample_lower_char c))%nat.
Proof. by_char_cases; simpl; lia. Qed.

Lemma sample_lower_char_space c :
  In Py.space (sample_lower_char c) -> c = Py.space.
Proof. unfold Py.space. by_char_cases; simpl; lia. Qed.

Lemma sample_lower_char_fixed c d :
  In d (sample_lower_char c) -> sample_lower_char d = [d].
Proof.
  unfold sample_lower_char at 1.
  repeat match goal with
    | |- context [if ?b then _ else _] =>
        let E := fresh "E" in destruct b eqn:E
    end; simpl; intros H;
  repeat match goal with H : _ \/ _ |- _ => destruct H end;
  try contradiction; subst d; by_char_cases.
Qed.

Lemma sample_lower_idem s : sample_lower (sample_lower s) = sample_lower s.
Proof.
  unfold sample_lower. induction s as [|c r IH]; simpl; [reflexivity|].
  rewrite flat_map_app, IH. f_equal.
  assert (F : forall l, (forall d, In d l -> sample_lower_char d = [d]) ->
                        flat_map sample_lower_char l = l).
  { induction l as [|d l IHl]; simpl; intros H; [reflexivity|].
    rewrite (H d (or_introl eq_refl)). simpl. f_equal. apply IHl.
    intros d' I. apply H. now right. }
  apply F. apply sample_lower_char_fixed.
Qed.

Lemma ucd_sample_lower_keeps : lower_keeps ucd_sample.
Proof.
  split; intros s.
  - rewrite lower_sample. unfold sample_lower.
    induction s as [|c r IH]; simpl; [lia|].
    rewrite length_app. pose proof (sample_lower_char_length c). lia.
  - rewrite lower_sample. unfold sample_lower. intros N I.
    apply in_flat_map in I. destruct I as (c & Ic & I).
    apply sample_lower_char_space in I. now subst.
Qed.

Lemma ucd_sample_lower_idempotent : lower_idempotent ucd_sample.
Proof.
  intros s. rewrite !lower_sample. apply sample_lower_idem.
Qed.

Lemma clean_author_names_output_ready_witness :
  lower_keeps ucd_sample /\ lower_idempotent ucd_sample /\
  returned (clean_author_names ucd_sample
              [VStr (u "Doe J."); VStr (u "X"); VStr (u " ");
               VStr (u "Y Z")])
    = Ok [u "doej"] /\
  Forall (aggregator_ready ucd_sample) [u "doej"] /\
  (length [u "doej"] <=
   length [VStr (u "Doe J."); VStr (u "X"); VStr (u " "); VStr (u "Y Z")])%nat.
Proof.
  split; [exact ucd_sample_lower_keeps|].
  split; [exact ucd_sample_lower_idempotent|].
  split; [reflexivity|].
  exact (clean_author_names_output_ready ucd_sample
           [VStr (u "Doe J."); VStr (u "X"); VStr (u " "); VStr (u "Y Z")]
           [u "doej"] ucd_sample_lower_keeps ucd_sample_lower_idempotent
           eq_refl).
Defined.

(* ================================================================== *)
(** ** extract_authors                                                 *)
(* ================================================================== *)

Lemma starts_with_cut (a : str) : forall s,
  Py.starts_with a s = true -> s = a ++ skipn (length a) s.
Proof.
  induction a as [|c a IH]; intros s H; [reflexivity|].
  destruct s as [|d s]; simpl in H; [discriminate|].
  apply andb_true_iff in H. destruct H as [E H]. apply N.eqb_eq in E.
  subst d. simpl. f_equal. now apply IH.
Qed.

Lemma starts_with_length (a : str) : forall s,
  Py.starts_with a s = true -> (length a <= length s)%nat.
Proof.
  induction a as [|c a IH]; intros s H; simpl; [lia|].
  destruct s as [|d s]; simpl in H; [discriminate|].
  apply andb_true_iff in H. destruct H as [_ H].
  simpl. apply le_n_S. now apply IH.
Qed.

Lemma split_from_nonempty sep s : forall skip cur,
  Py.split_from sep skip cur s <> [].
Proof.
  induction s as [|c r IH]; cbn [Py.split_from]; intros skip cur;
    [discriminate|].
  destruct skip; [|apply IH]. destruct (Py.starts_with sep (c :: r));
    [discriminate | apply IH].
Qed.

Lemma join_cons sep x xs :
  xs <> [] -> Py.join sep (x :: xs) = x ++ sep ++ Py.join sep xs.
Proof. destruct xs; [congruence | reflexivity]. Qed.

(** As many pieces as separators, and one more. *)
Lemma split_from_length sep s : forall skip cur,
  length (Py.split_from sep skip cur s) = S (Py.count_from sep skip s).
Proof.
  induction s as [|c r IH]; cbn [Py.split_from Py.count_from];
    intros skip cur; [reflexivity|].
  destruct skip; [|apply IH].
  destruct (Py.starts_with sep (c :: r)); cbn [length]; now rewrite IH.
Qed.

(** Putting the separator back between the pieces gives what was split:
    the piece under way, then the text still to be read, less the rest of
    a separator just matched. *)
Lemma split_from_join sep s : sep <> [] -> forall skip cur,
  (skip <= length s)%nat ->
  Py.join sep (Py.split_from sep skip cur s) = cur ++ skipn skip s.
Proof.
  intros Hsep.
  induction s as [|c r IH]; cbn [Py.split_from length]; intros skip cur Hk.
  - assert (skip = 0) by lia. subst. simpl. now rewrite app_nil_r.
  - destruct skip as [|k].
    + destruct (Py.starts_with sep (c :: r)) eqn:P.
      * pose proof (starts_with_length _ _ P) as L. cbn [length] in L.
        pose proof (starts_with_cut _ _ P) as C.
        rewrite join_cons by apply split_from_nonempty.
        destruct sep as [|a sep]; [congruence|]. cbn [length] in *.
        rewrite IH by lia. cbn [skipn app]. f_equal.
        cbn [skipn app] in C. replace (S (length sep) - 1) with (length sep)
          by lia. now symmetry.
      * rewrite IH by lia. cbn [skipn]. now rewrite <- app_assoc.
    + rewrite IH by lia. reflexivity.
Qed.

Lemma split_sep_join sep s :
  sep <> [] -> Py.join sep (Py.split_sep sep s) = s.
Proof.
  intros H. unfold Py.split_sep. now rewrite split_from_join by (auto; lia).
Qed.

Lemma extract_authors_cons f fields :
  extract_authors (f :: fields) =
  Py.split_sep (u ", ") f ++ extract_authors fields.
Proof. reflexivity. Qed.

Lemma extract_authors_app a b :
  extract_authors (a ++ b) = extract_authors a ++ extract_authors b.
Proof. unfold extract_authors. now rewrite map_app, concat_app. Qed.

(** C6: [extract_authors] lays out, field after field, the pieces of
    each field in their order, where the pieces of a field are what lies
    between its occurrences of [", "]: they give the field back when
    joined with [", "], and there is one more of them than the field has
    occurrences of [", "].  The output is therefore as long as the sum,
    over the fields, of that count plus one.  (This holds for an empty
    field too, whose only piece is the empty string.) *)
Theorem extract_authors_length :
  forall fields : list str,
    (exists pieces : list (list str),
       Forall2 (fun f ps =>
                  Py.join (u ", ") ps = f /\
                  length ps = Py.count (u ", ") f + 1)
               fields pieces /\
       extract_authors fields = concat pieces) /\
    length (extract_authors fields) =
    list_sum (map (fun f => Py.count (u ", ") f + 1) fields).
Proof.
  intros fields. split.
  - exists (map (Py.split_sep (u ", ")) fields). split; [|reflexivity].
    induction fields as [|f fields IH]; simpl; constructor; [|exact IH].
    split; [now apply split_sep_join|].
    unfold Py.split_sep, Py.count. rewrite split_from_length. lia.
  - induction fields as [|f fields IH]; [reflexivity|].
    rewrite extract_authors_cons, length_app, IH. simpl. f_equal.
    unfold Py.split_sep, Py.count. rewrite split_from_length. lia.
Qed.

(* ================================================================== *)
(** ** extract_authors: further properties                             *)
(* ================================================================== *)

Lemma starts_with_app sep : forall b s,
  Py.starts_with sep b = true -> Py.starts_with sep (b ++ s) = true.
Proof.
  induction sep as [|x sep IH]; intros b s H; [reflexivity|].
  destruct b as [|y b]; simpl in *; [discriminate|].
  apply andb_true_iff in H. destruct H as [E H].
  rewrite E. simpl. now apply IH.
Qed.

Lemma starts_with_nil sep : sep <> [] -> Py.starts_with sep [] = false.
Proof. destruct sep; [congruence | reflexivity]. Qed.

(** A string in which the separator occurs nowhere counts none. *)
Lemma free_of_count sep p : free_of sep p -> Py.count_from sep 0 p = 0.
Proof.
  induction p as [|c r IH]; intros F; [reflexivity|].
  cbn [Py.count_from]. rewrite (F [] (c :: r) eq_refl).
  apply IH. intros a b E. apply (F (c :: a) b). simpl. now rewrite E.
Qed.

Lemma snoc_split (a : str) : forall b cur c,
  a ++ b = cur ++ [c] -> b <> [] ->
  exists b', b = b' ++ [c] /\ cur = a ++ b'.
Proof.
  induction a as [|x a IH]; simpl; intros b cur c E N.
  - exists cur. now split.
  - destruct cur as [|y cur]; simpl in E; inversion E as [[Ex Er]].
    + destruct a; destruct b; simpl in Er; congruence.
    + destruct (IH _ _ _ Er N) as (b' & -> & ->). now exists b'.
Qed.

Lemma gathered_free sep cur s :
  sep <> [] -> gathered sep cur s -> free_of sep cur.
Proof.
  intros N G a b E. destruct b as [|y b]; [now apply starts_with_nil|].
  destruct (Py.starts_with sep (y :: b)) eqn:P; [|reflexivity].
  rewrite <- (G a (y :: b) E) by discriminate.
  symmetry. now apply starts_with_app.
Qed.

Lemma gathered_nil sep s : gathered sep [] s.
Proof.
  intros a b E N. destruct a; destruct b; simpl in E; congruence.
Qed.

Lemma gathered_snoc sep cur c r :
  gathered sep cur (c :: r) -> Py.starts_with sep (c :: r) = false ->
  gathered sep (cur ++ [c]) r.
Proof.
  intros G P a b E N. symmetry in E.
  destruct (snoc_split _ _ _ _ E N) as (b' & -> & ->).
  rewrite <- app_assoc. simpl.
  destruct b' as [|y b']; [exact P|].
  apply (G a (y :: b') eq_refl). discriminate.
Qed.

Lemma split_from_free sep s : sep <> [] -> forall skip cur,
  (skip = 0 -> gathered sep cur s) -> (skip <> 0 -> cur = []) ->
  Forall (free_of sep) (Py.split_from sep skip cur s).
Proof.
  intros N. induction s as [|c r IH]; cbn [Py.split_from]; intros skip cur G0 G1.
  - constructor; [|constructor]. destruct skip as [|k].
    + apply (gathered_free _ _ [] N (G0 eq_refl)).
    + rewrite G1 by discriminate. intros a b E.
      destruct a; destruct b; simpl in E; try congruence.
      now apply starts_with_nil.
  - destruct skip as [|k].
    + destruct (Py.starts_with sep (c :: r)) eqn:P.
      * constructor; [apply (gathered_free _ _ _ N (G0 eq_refl))|].
        apply IH; [intros _; apply gathered_nil | reflexivity].
      * apply IH; [|congruence]. intros _.
        apply gathered_snoc; [now apply G0 | exact P].
    + rewrite G1 by discriminate.
      apply IH; [intros _; apply gathered_nil | reflexivity].
Qed.

(** X1: no name that [extract_authors] returns holds the delimiter:
    [", "] occurs nowhere in it, and [count(", ")] is zero on it. *)
Theorem extract_authors_no_delimiter_left :
  forall fields : list str,
    Forall (fun name => free_of (u ", ") name /\ Py.count (u ", ") name = 0)
           (extract_authors fields).
Proof.
  intros fields. unfold extract_authors.
  induction fields as [|f fields IH]; simpl; [constructor|].
  apply Forall_app. split; [|exact IH].
  assert (F : Forall (free_of (u ", ")) (Py.split_sep (u ", ") f)).
  { apply split_from_free; [discriminate | intros _; apply gathered_nil |].
    congruence. }
  apply (Forall_impl _ (P := free_of (u ", "))); [|exact F].
  intros name Hn. split; [exact Hn | now apply free_of_count].
Qed.

Lemma split_from_plain sep s : forall cur,
  Py.count_from sep 0 s = 0 ->
  Py.split_from sep 0 cur s = [cur ++ s].
Proof.
  induction s as [|c r IH]; cbn [Py.split_from Py.count_from]; intros cur H.
  - now rewrite app_nil_r.
  - destruct (Py.starts_with sep (c :: r)); [discriminate|].
    rewrite IH by assumption. now rewrite <- app_assoc.
Qed.

(** X2: a column none of whose fields holds the delimiter is returned
    as it is, one name for each field. *)
Theorem extract_authors_plain_fields :
  forall fields : list str,
    Forall (fun f => Py.count (u ", ") f = 0) fields ->
    extract_authors fields = fields.
Proof.
  intros fields H. unfold extract_authors.
  induction H as [|f fields Hf _ IH]; simpl; [reflexivity|].
  unfold Py.split_sep at 1. rewrite (split_from_plain _ _ _ Hf), IH.
  reflexivity.
Qed.

Lemma extract_authors_plain_fields_witness :
  Forall (fun f => Py.count (u ", ") f = 0) [u "Doe J."; []; u "Smith,J."] /\
  extract_authors [u "Doe J."; []; u "Smith,J."] =
    [u "Doe J."; []; u "Smith,J."].
Proof.
  assert (H : Forall (fun f => Py.count (u ", ") f = 0)
                     [u "Doe J."; []; u "Smith,J."])
    by (repeat constructor).
  split; [exact H|].
  exact (extract_authors_plain_fields _ H).
Defined.

(** X3: every field yields at least one name -- an empty field the
    empty name -- so the output is never shorter than the column. *)
Theorem extract_authors_at_least_one_per_field :
  forall fields : list str,
    (length fields <= length (extract_authors fields))%nat.
Proof.
  intros fields. induction fields as [|f fields IH]; [apply le_n|].
  rewrite extract_authors_cons, length_app.
  unfold Py.split_sep. rewrite split_from_length. simpl. lia.
Qed.

(* ================================================================== *)
(** ** First occurrences and counts                                    *)
(* ================================================================== *)

Lemma in_first_seen l : forall k, In k (first_seen l) <-> In k l.
Proof.
  induction l as [|x l IH]; simpl; intros k; [tauto|].
  rewrite filter_In, IH, negb_true_iff, str_eqb_neq.
  destruct (str_dec x k) as [->|N]; [tauto|].
  split; [tauto|]. intros [E|H]; [congruence|]. right. split; congruence.
Qed.

Lemma NoDup_first_seen l : NoDup (first_seen l).
Proof.
  induction l as [|x l IH]; simpl; constructor.
  - rewrite filter_In, negb_true_iff, str_eqb_neq. tauto.
  - now apply NoDup_filter.
Qed.

(** A name met again leaves the order alone; a new one goes last. *)
Lemma first_seen_snoc l x :
  first_seen (l ++ [x]) =
  if in_dec str_dec x l then first_seen l else first_seen l ++ [x].
Proof.
  induction l as [|y l IH]; simpl; [reflexivity|]. rewrite IH.
  destruct (str_dec y x) as [->|N].
  - destruct (in_dec str_dec x l); [reflexivity|].
    rewrite filter_app. simpl. rewrite str_eqb_refl. simpl.
    now rewrite app_nil_r.
  - destruct (in_dec str_dec x l); [reflexivity|].
    rewrite filter_app. simpl.
    destruct (str_eqb_spec x y) as [->|_]; [congruence | reflexivity].
Qed.

Lemma first_seen_length l : (length (first_seen l) <= length l)%nat.
Proof.
  induction l as [|x l IH]; simpl; [lia|].
  pose proof (filter_length_le (fun y => negb (str_eqb y x)) (first_seen l)).
  lia.
Qed.

Lemma occurrences_snoc k l x :
  occurrences k (l ++ [x]) =
  (occurrences k l + if str_eqb x k then 1 else 0)%Z.
Proof.
  unfold occurrences. rewrite count_occ_app. simpl.
  destruct (str_dec x k) as [->|N].
  - rewrite str_eqb_refl. lia.
  - apply str_eqb_neq in N. rewrite N. lia.
Qed.

Lemma occurrences_absent k l : ~ In k l -> occurrences k l = 0%Z.
Proof.
  intros H. unfold occurrences.
  now rewrite (proj1 (count_occ_not_In str_dec l k) H).
Qed.

Lemma occurrences_present k l : In k l -> (1 <= occurrences k l)%Z.
Proof.
  intros H. unfold occurrences.
  apply (count_occ_In str_dec) in H. lia.
Qed.

(* ================================================================== *)
(** ** The dictionary of counts                                        *)
(* ================================================================== *)

Section Table.

Variable f : str -> Z.

Lemma dict_get_table K x :
  dict_get (table f K) x 0 = if in_dec str_dec x K then f x else 0%Z.
Proof.
  induction K as [|y K IH]; simpl; [reflexivity|].
  destruct (str_eqb_spec y x) as [->|N].
  - destruct (str_dec x x); [reflexivity | congruence].
  - rewrite IH. destruct (str_dec y x); [congruence|].
    destruct (in_dec str_dec x K); reflexivity.
Qed.

Lemma dict_set_table_new K x v :
  ~ In x K -> dict_set (table f K) x v = table f K ++ [(x, v)].
Proof.
  induction K as [|y K IH]; simpl; intros H; [reflexivity|].
  destruct (str_eqb_spec y x) as [->|N]; [tauto|].
  f_equal. apply IH. tauto.
Qed.

Lemma dict_set_table_old K x v :
  NoDup K -> In x K ->
  dict_set (table f K) x v =
  map (fun k => (k, if str_eqb x k then v else f k)) K.
Proof.
  induction K as [|y K IH]; simpl; intros ND H; [tauto|].
  inversion ND as [|? ? Hy ND']; subst.
  destruct (str_eqb_spec y x) as [->|N].
  - rewrite str_eqb_refl. f_equal. apply map_ext_in.
    intros k Hk. destruct (str_eqb_spec x k) as [->|_]; [tauto|reflexivity].
  - destruct (str_eqb_spec x y) as [->|_]; [congruence|].
    f_equal. apply IH; [assumption|]. destruct H; [congruence | assumption].
Qed.

End Table.

Lemma count_names_snoc l x :
  count_names (l ++ [x]) = count_step (count_names l) x.
Proof. unfold count_names. now rewrite fold_left_app. Qed.

(** After the first loop the dictionary lists the distinct names in the
    order of their first occurrence, each with its number of
    occurrences. *)
Lemma count_names_table l :
  count_names l = table (fun k => occurrences k l) (first_seen l).
Proof.
  induction l as [|x l IH] using rev_ind; [reflexivity|].
  rewrite count_names_snoc, IH, first_seen_snoc. unfold count_step.
  rewrite dict_get_table.
  destruct (in_dec str_dec x (first_seen l)) as [I|I];
    destruct (in_dec str_dec x l) as [I'|I'].
  - rewrite dict_set_table_old by (auto using NoDup_first_seen).
    apply map_ext. intros k. rewrite occurrences_snoc.
    destruct (str_eqb_spec x k) as [->|_]; f_equal; lia.
  - exfalso. apply I'. now apply in_first_seen.
  - exfalso. apply I. now apply in_first_seen.
  - rewrite dict_set_table_new by assumption.
    unfold table. rewrite map_app. simpl. f_equal.
    + apply map_ext_in. intros k Hk. rewrite occurrences_snoc.
      destruct (str_eqb_spec x k) as [->|_]; [tauto|]. f_equal. lia.
    + rewrite occurrences_snoc, str_eqb_refl, (occurrences_absent _ _ I').
      reflexivity.
Qed.

(** Each pass of the first loop adds one to the total. *)
Lemma count_step_sum d x :
  sum_Z (dict_values (count_step d x)) = (sum_Z (dict_values d) + 1)%Z.
Proof.
  unfold count_step. induction d as [|[k v] d IH]; simpl; [reflexivity|].
  destruct (str_eqb k x); simpl; [lia|]. rewrite IH. lia.
Qed.

Lemma count_names_sum l :
  sum_Z (dict_values (count_names l)) = Z.of_nat (length l).
Proof.
  induction l as [|x l IH] using rev_ind; [reflexivity|].
  rewrite count_names_snoc, count_step_sum, IH, length_app. simpl. lia.
Qed.

Lemma dict_keys_table f K : dict_keys (table f K) = K.
Proof.
  unfold dict_keys, table. rewrite map_map. simpl. apply map_id.
Qed.

Lemma dict_values_table f K : dict_values (table f K) = map f K.
Proof.
  unfold dict_values, table. now rewrite map_map.
Qed.

(* ================================================================== *)
(** ** Display names                                                   *)
(* ================================================================== *)

Lemma str_last_snoc body c : Py.str_last (body ++ [c]) = Ok [c].
Proof.
  induction body as [|d body IH]; [reflexivity|].
  simpl. rewrite IH. now destruct body.
Qed.

Lemma str_init_snoc body c : Py.str_init (body ++ [c]) = body.
Proof.
  induction body as [|d body IH]; [reflexivity|].
  simpl. rewrite IH. now destruct body.
Qed.

Lemma str_snoc_inv (s : str) : s <> [] -> exists body c, s = body ++ [c].
Proof.
  intros H. destruct (exists_last H) as (body & c & E). now exists body, c.
Qed.

(** The display name of a key with last character [c]. *)
Lemma format_name_snoc U body c :
  format_name U (body ++ [c]) =
  Ok (Py.upper U [c] ++ u ". " ++ Py.capitalize U body).
Proof.
  unfold format_name. now rewrite str_last_snoc, str_init_snoc.
Qed.

Lemma format_name_ok U (k : str) : k <> [] -> exists n, format_name U k = Ok n.
Proof.
  intros H. destruct (str_snoc_inv k H) as (body & c & ->).
  rewrite format_name_snoc. eauto.
Qed.

Lemma format_name_empty U :
  format_name U [] = Raise (IndexError (u "string index out of range")).
Proof. reflexivity. Qed.

(** The second loop appends the display names of the keys, in the
    order of the dictionary. *)
Lemma format_loop_ok U (items : dict) :
  Forall (fun k => k <> []) (dict_keys items) ->
  forall acc, exists names,
    format_loop U items acc = Ok (acc ++ names) /\
    Forall2 (fun k n => format_name U k = Ok n) (dict_keys items) names.
Proof.
  induction items as [|[k v] items IH]; simpl; intros H acc.
  - exists []. rewrite app_nil_r. split; [reflexivity | constructor].
  - inversion H as [|? ? Hk Hr]; subst.
    destruct (format_name_ok U k Hk) as [n Hn].
    destruct (IH Hr (acc ++ [n])) as (names & E & F).
    exists (n :: names). rewrite Hn. simpl. rewrite E, <- app_assoc.
    split; [reflexivity | now constructor].
Qed.

(** What the function returns on non-empty keys: one count and one
    display name for each distinct key, in the order of first
    occurrence. *)
Lemma create_author_count_dataframe_ok U (l : list str) :
  Forall (fun k => k <> []) l ->
  exists names,
    create_author_count_dataframe U l =
      Ok (mkDataFrame (map (fun k => occurrences k l) (first_seen l)) names) /\
    Forall2 (fun k n => format_name U k = Ok n) (first_seen l) names.
Proof.
  intros H. unfold create_author_count_dataframe.
  rewrite count_names_table, dict_values_table.
  destruct (format_loop_ok U (table (fun k => occurrences k l) (first_seen l)))
    with (acc := @nil str) as (names & E & F).
  - rewrite dict_keys_table. rewrite Forall_forall in *.
    intros k Hk. apply H. now apply in_first_seen.
  - rewrite dict_keys_table in F. exists names. rewrite E. now split.
Qed.

Lemma Forall2_length_eq {A B} (R : A -> B -> Prop) xs ys :
  Forall2 R xs ys -> length xs = length ys.
Proof. induction 1; simpl; congruence. Qed.

(* ================================================================== *)
(** ** create_author_count_dataframe: main results                     *)
(* ================================================================== *)

(** C3: on non-empty keys [create_author_count_dataframe] returns a
    table with one row for each distinct key of the input and none
    besides, the rows in the order in which the keys first occur, each
    row holding the number of occurrences of its key and the key's display
    name; the counts add up to the length of the input. *)
Theorem create_author_count_dataframe_rows :
  forall U (l : list str),
    Forall (fun k => k <> []) l ->
    exists df,
      create_author_count_dataframe U l = Ok df /\
      NoDup (first_seen l) /\
      (forall k, In k (first_seen l) <-> In k l) /\
      Forall2 (fun k row => fst row = occurrences k l /\
                            format_name U k = Ok (snd row))
              (first_seen l) (rows df) /\
      length (Count df) = length (first_seen l) /\
      length (Name df) = length (first_seen l) /\
      sum_Z (Count df) = Z.of_nat (length l).
Proof.
  intros U l H.
  destruct (create_author_count_dataframe_ok U l H) as (names & E & F).
  eexists. split; [exact E|]. simpl.
  split; [apply NoDup_first_seen|]. split; [apply in_first_seen|].
  split; [|split; [|split]].
  - unfold rows. simpl. clear E. induction F; simpl; constructor; auto.
  - apply length_map.
  - symmetry. apply (Forall2_length_eq _ _ _ F).
  - rewrite <- (count_names_sum l), count_names_table, dict_values_table.
    reflexivity.
Qed.

Lemma create_author_count_dataframe_rows_witness :
  Forall (fun k => k <> []) [u "b"; u "a"; u "b"] /\
  exists df,
    create_author_count_dataframe ucd_sample [u "b"; u "a"; u "b"] = Ok df /\
    NoDup (first_seen [u "b"; u "a"; u "b"]) /\
    (forall k, In k (first_seen [u "b"; u "a"; u "b"]) <->
               In k [u "b"; u "a"; u "b"]) /\
    Forall2 (fun k row => fst row = occurrences k [u "b"; u "a"; u "b"] /\
                          format_name ucd_sample k = Ok (snd row))
            (first_seen [u "b"; u "a"; u "b"]) (rows df) /\
    length (Count df) = length (first_seen [u "b"; u "a"; u "b"]) /\
    length (Name df) = length (first_seen [u "b"; u "a"; u "b"]) /\
    sum_Z (Count df) = Z.of_nat (length [u "b"; u "a"; u "b"]).
Proof.
  assert (H : Forall (fun k : str => k <> []) [u "b"; u "a"; u "b"])
    by (repeat constructor; discriminate).
  split; [exact H|].
  exact (create_author_count_dataframe_rows ucd_sample
           [u "b"; u "a"; u "b"] H).
Defined.

(** C7: the display name of a key is its last character upper-cased,
    then [". "], then the capitalization of the characters before the
    last; the [Name] column holds these for the distinct keys in the
    order of first occurrence.  In particular the six keys of the
    specification's example give the five rows (1, J. Doe), (2, J. Smith),
    (1, A. Johnson), (1, A. Williams), (1, B. Brown). *)
Theorem create_author_count_dataframe_names :
  forall U,
    (forall l : list str,
       Forall (fun k => k <> []) l ->
       exists df,
         create_author_count_dataframe U l = Ok df /\
         Forall2 (fun k n => forall body c,
                    k = body ++ [c] ->
                    n = Py.upper U [c] ++ u ". " ++ Py.capitalize U body)
                 (first_seen l) (Name df)) /\
    (exists df,
       create_author_count_dataframe U
         [u "doej"; u "smithj"; u "johnsona"; u "williamsa"; u "brownb";
          u "smithj"] = Ok df /\
       rows df = [(1%Z, u "J. Doe"); (2%Z, u "J. Smith");
                  (1%Z, u "A. Johnson"); (1%Z, u "A. Williams");
                  (1%Z, u "B. Brown")]).
Proof.
  intros U. split; [|eexists; split; reflexivity].
  intros l H.
  destruct (create_author_count_dataframe_ok U l H) as (names & E & F).
  eexists. split; [exact E|]. simpl. clear E.
  induction F as [|k n ks ns Hk _ IH]; constructor; [|exact IH].
  intros body c ->. rewrite format_name_snoc in Hk. now inversion Hk.
Qed.

Lemma create_author_count_dataframe_names_witness :
  Forall (fun k => k <> [])
         [u "doe" ++ [233%N]; u "doej"; u "doe" ++ [233%N]] /\
  exists df,
    create_author_count_dataframe ucd_sample
      [u "doe" ++ [233%N]; u "doej"; u "doe" ++ [233%N]] = Ok df /\
    Forall2 (fun k n => forall body c,
               k = body ++ [c] ->
               n = Py.upper ucd_sample [c] ++ u ". " ++
                   Py.capitalize ucd_sample body)
            (first_seen [u "doe" ++ [233%N]; u "doej"; u "doe" ++ [233%N]])
            (Name df).
Proof.
  assert (H : Forall (fun k : str => k <> [])
                     [u "doe" ++ [233%N]; u "doej"; u "doe" ++ [233%N]])
    by (repeat constructor; discriminate).
  split; [exact H|].
  exact (proj1 (create_author_count_dataframe_names ucd_sample) _ H).
Defined.

(* ================================================================== *)
(** ** Back from the table to the keys                                 *)
(* ================================================================== *)

(** Reversing the display format gives a lower-case ASCII key back. *)
Lemma key_of_display_name_format U k n :
  Py.is_ascii k = true -> Py.lower U k = k ->
  format_name U k = Ok n -> key_of_display_name U n = k.
Proof.
  intros A L F. destruct k as [|d k]; [discriminate|].
  destruct (str_snoc_inv (d :: k)) as (body & c & E); [discriminate|].
  rewrite E in *. rewrite is_ascii_app in A. apply andb_true_iff in A.
  destruct A as [Ab Ac].
  rewrite format_name_snoc, (upper_ascii U [c] Ac), (capitalize_ascii U _ Ab)
    in F.
  inversion F; subst n. change (u ". ") with [46%N; 32%N].
  cbn [Py.ascii_upper map app key_of_display_name].
  rewrite lower_ascii.
  - unfold Py.ascii_lower. rewrite map_app. cbn [map].
    fold (Py.ascii_lower (Py.ascii_capitalize body)).
    rewrite ascii_lower_capitalize, ascii_lower_upper_char.
    rewrite lower_ascii in L by (rewrite is_ascii_app, Ab; exact Ac).
    unfold Py.ascii_lower in L. rewrite map_app in L. exact L.
  - rewrite is_ascii_app, is_ascii_capitalize, Ab. cbn [Py.is_ascii forallb].
    cbn [Py.is_ascii forallb] in Ac. now rewrite is_ascii_upper_char.
Qed.

(** A name that the dictionary does not hold yet enters it with count
    one, at the end. *)
Lemma count_step_new d k :
  ~ In k (dict_keys d) -> count_step d k = d ++ [(k, 1%Z)].
Proof.
  unfold count_step. induction d as [|[k' v] d IH]; simpl; intros H;
    [reflexivity|].
  destruct (str_eqb_spec k' k) as [->|N]; [tauto|].
  f_equal. apply IH. tauto.
Qed.

(** Met again right away, it has its count raised in place. *)
Lemma count_step_last d k v :
  ~ In k (dict_keys d) ->
  count_step (d ++ [(k, v)]) k = d ++ [(k, (v + 1)%Z)].
Proof.
  unfold count_step. induction d as [|[k' v'] d IH]; simpl; intros H.
  - now rewrite str_eqb_refl.
  - destruct (str_eqb_spec k' k) as [->|N]; [tauto|].
    f_equal. apply IH. tauto.
Qed.

Lemma count_run d k m :
  ~ In k (dict_keys d) ->
  fold_left count_step (repeat k (S m)) d = d ++ [(k, Z.of_nat (S m))].
Proof.
  intros H. induction m as [|m IH].
  - simpl. now apply count_step_new.
  - change (repeat k (S (S m))) with (k :: repeat k (S m)).
    rewrite (repeat_cons (S m) k), fold_left_app, IH. cbn [fold_left].
    rewrite count_step_last by assumption.
    rewrite (Nat2Z.inj_succ (S m)). reflexivity.
Qed.

(** Counting a list in which every key of [K] comes in one run gives
    each key the length of its run, in the order of [K]. *)
Lemma count_runs (n : str -> nat) (K : list str) :
  NoDup K -> (forall k, In k K -> (1 <= n k)%nat) ->
  forall d, (forall k, In k K -> ~ In k (dict_keys d)) ->
  fold_left count_step (flat_map (fun k => repeat k (n k)) K) d =
  d ++ table (fun k => Z.of_nat (n k)) K.
Proof.
  induction K as [|k K IH]; simpl; intros ND Hn d Hd.
  - now rewrite app_nil_r.
  - inversion ND as [|? ? Hk ND']; subst.
    rewrite fold_left_app.
    destruct (n k) as [|m] eqn:E; [specialize (Hn k (or_introl eq_refl)); lia|].
    rewrite count_run by (apply Hd; now left).
    rewrite IH; auto.
    + rewrite <- app_assoc. reflexivity.
    + intros k' Hk'. unfold dict_keys. rewrite map_app, in_app_iff. simpl.
      intros [I|[->|[]]]; [|tauto]. apply (Hd k'); [now right | exact I].
Qed.

(** The keys the rows of the returned table stand for. *)
Lemma keys_of_table_rows U l (K : list str) names :
  Forall (fun k => Py.is_ascii k = true /\ Py.lower U k = k) K ->
  Forall2 (fun k n => format_name U k = Ok n) K names ->
  keys_of_table U (combine (map (fun k => occurrences k l) K) names) =
  flat_map (fun k => repeat k (Z.to_nat (occurrences k l))) K.
Proof.
  intros L F. induction F as [|k n K names Hk _ IH]; [reflexivity|].
  inversion L as [|? ? [Ak Lk] LK]; subst. unfold keys_of_table in *. simpl.
  now rewrite IH, (key_of_display_name_format _ _ _ Ak Lk Hk).
Qed.

Lemma count_names_regrouped l :
  count_names (flat_map (fun k => repeat k (Z.to_nat (occurrences k l)))
                        (first_seen l)) = count_names l.
Proof.
  unfold count_names at 1. rewrite count_runs.
  - simpl. rewrite count_names_table. apply map_ext_in. intros k Hk.
    apply (proj1 (in_first_seen l k)), occurrences_present in Hk.
    f_equal. lia.
  - apply NoDup_first_seen.
  - intros k Hk.
    apply (proj1 (in_first_seen l k)), occurrences_present in Hk. lia.
  - intros k _ [].
Qed.

(** Display names of distinct lower-case ASCII keys are distinct, for
    they give the keys back. *)
Lemma display_names_reverse U (K : list str) names :
  Forall (fun k => Py.is_ascii k = true /\ Py.lower U k = k) K ->
  Forall2 (fun k n => format_name U k = Ok n) K names ->
  map (key_of_display_name U) names = K.
Proof.
  intros L F. induction F as [|k n K ns Hk _ IH]; [reflexivity|].
  inversion L as [|? ? [Ak Lk] LK]; subst. simpl.
  now rewrite IH, (key_of_display_name_format _ _ _ Ak Lk Hk).
Qed.

Lemma display_names_distinct U (K : list str) names :
  Forall (fun k => Py.is_ascii k = true /\ Py.lower U k = k) K -> NoDup K ->
  Forall2 (fun k n => format_name U k = Ok n) K names ->
  NoDup names.
Proof.
  intros L ND F. apply (NoDup_map_inv (key_of_display_name U)).
  now rewrite (display_names_reverse U K names L F).
Qed.

(** C8, as stated, fails beyond ASCII.  With the sharp s the keys
    [ßa] and [ssa] are both lower-case and of three and two characters,
    yet both are shown as [A. Ss]: the table has two rows of count one,
    the keys re-derived from it are [ssa] twice, and the Aggregator run on
    those returns one row of count two. *)
Lemma sharp_s_keys_do_not_round_trip :
  ~ (Forall (well_formed_key ucd_sample) [[223%N; 97%N]; u "ssa"] ->
     exists df,
       create_author_count_dataframe ucd_sample [[223%N; 97%N]; u "ssa"] =
         Ok df /\
       create_author_count_dataframe ucd_sample
         (keys_of_table ucd_sample (rows df)) = Ok df).
Proof.
  intros H. destruct H as (df & E1 & E2).
  - repeat constructor.
  - vm_compute in E1. inversion E1; subst df. vm_compute in E2.
    discriminate.
Qed.

(** C8 (amended): on well-formed keys of ASCII characters (lower-case,
    two characters or more) the display format can be reversed without
    collision: lower-casing the last-name part followed by the initial
    gives, row by row, the distinct keys back; and the Aggregator run on
    the keys re-derived from its own table, each as often as its row
    counts it, returns the very same table, so the same count for every
    key. *)
Theorem create_author_count_dataframe_round_trip :
  forall U (l : list str),
    Forall (fun k => Py.is_ascii k = true /\ well_formed_key U k) l ->
    exists df,
      create_author_count_dataframe U l = Ok df /\
      map (key_of_display_name U) (Name df) = first_seen l /\
      NoDup (Name df) /\
      Count df = map (fun k => occurrences k l) (first_seen l) /\
      create_author_count_dataframe U (keys_of_table U (rows df)) = Ok df.
Proof.
  intros U l W.
  assert (Hne : Forall (fun k : str => k <> []) l).
  { apply (Forall_impl _ (P := fun k => Py.is_ascii k = true /\
                                         well_formed_key U k)); [|exact W].
    intros k [_ [_ L]] ->. simpl in L. lia. }
  assert (Hlow : Forall (fun k => Py.is_ascii k = true /\ Py.lower U k = k)
                        (first_seen l)).
  { apply Forall_forall. intros k Hk.
    apply (proj1 (in_first_seen l k)) in Hk.
    destruct (proj1 (Forall_forall _ _) W k Hk) as [A [L _]]. now split. }
  destruct (create_author_count_dataframe_ok U l Hne) as (names & E & F).
  pose proof (display_names_reverse U _ _ Hlow F) as M.
  eexists. split; [exact E|]. simpl. split; [exact M|].
  split; [|split; [reflexivity|]].
  - apply (display_names_distinct U (first_seen l)); auto.
    apply NoDup_first_seen.
  - unfold rows. simpl. rewrite (keys_of_table_rows _ _ _ _ Hlow F).
    unfold create_author_count_dataframe in *.
    rewrite count_names_regrouped. exact E.
Qed.

Lemma create_author_count_dataframe_round_trip_witness :
  Forall (fun k => Py.is_ascii k = true /\ well_formed_key ucd_sample k)
         [u "smithj"; u "doej"; u "smithj"] /\
  exists df,
    create_author_count_dataframe ucd_sample
      [u "smithj"; u "doej"; u "smithj"] = Ok df /\
    map (key_of_display_name ucd_sample) (Name df) =
      first_seen [u "smithj"; u "doej"; u "smithj"] /\
    NoDup (Name df) /\
    Count df = map (fun k => occurrences k [u "smithj"; u "doej"; u "smithj"])
                   (first_seen [u "smithj"; u "doej"; u "smithj"]) /\
    create_author_count_dataframe ucd_sample
      (keys_of_table ucd_sample (rows df)) = Ok df.
Proof.
  assert (H : Forall (fun k => Py.is_ascii k = true /\
                               well_formed_key ucd_sample k)
                     [u "smithj"; u "doej"; u "smithj"])
    by (repeat constructor; simpl; lia).
  split; [exact H|].
  exact (create_author_count_dataframe_round_trip ucd_sample _ H).
Defined.

(* ================================================================== *)
(** ** clean_author_names: further properties                          *)
(* ================================================================== *)

(** X4: on a list of strings [clean_author_names] never raises.  It
    returns, in order, the keys of the names of two words or more that
    come before the first wordless name (of all such names if there is
    none), and it prints the two diagnostic lines for that wordless name,
    or nothing. *)
Theorem clean_author_names_on_strings :
  forall U (l : list str),
    exists ks,
      clean_author_names U (map VStr l) =
        mkOutcome (Ok ks)
          (match first_wordless l with
           | Some s => [u "list index out of range"; u "Error: " ++ s]
           | None => []
           end) /\
      Forall2 (fun s k => exists t0 c r more,
                 Py.split s = t0 :: (c :: r) :: more /\
                 k = Py.replace Py.space [] (Py.lower U (t0 ++ [c])))
              (filter two_words (until_wordless l)) ks.
Proof.
  intros U l. exists (flat_map (name_keys U) (until_wordless l)). split.
  - unfold clean_author_names. rewrite for_loop_strings_any.
    destruct (first_wordless l); reflexivity.
  - apply name_keys_spec.
Qed.

(** X5: once the loop has left by [break] or by an exception, what
    follows in the list is never looked at: the call returns and prints
    the same with or without it. *)
Theorem clean_author_names_ignores_rest :
  forall U pre post,
    (forall st, for_loop U pre (mkState [] []) <> Normal st) ->
    clean_author_names U (pre ++ post) = clean_author_names U pre.
Proof.
  intros U pre post H. unfold clean_author_names. rewrite for_loop_app.
  destruct (for_loop U pre (mkState [] [])) as [st|st|e st]; try reflexivity.
  now destruct (H st).
Qed.

Lemma clean_author_names_ignores_rest_witness :
  (forall st, for_loop ucd_sample [VStr (u "Doe J."); VStr []] (mkState [] [])
              <> Normal st) /\
  clean_author_names ucd_sample
    ([VStr (u "Doe J."); VStr []] ++ [VStr (u "Smith J.")]) =
  clean_author_names ucd_sample [VStr (u "Doe J."); VStr []].
Proof.
  assert (H : forall st,
             for_loop ucd_sample [VStr (u "Doe J."); VStr []] (mkState [] [])
             <> Normal st)
    by (intros st; discriminate).
  split; [exact H|].
  exact (clean_author_names_ignores_rest ucd_sample
           [VStr (u "Doe J."); VStr []] [VStr (u "Smith J.")] H).
Defined.

(** How the loop can end, for any list of values. *)
Lemma for_loop_ends U l : forall st,
  match for_loop U l st with
  | Normal st' => stdout st' = stdout st
  | Broke st' =>
      exists s, In (VStr s) l /\ Py.split s = [] /\
                stdout st' = stdout st ++ diagnostic s
  | Raised e st' =>
      stdout st' = stdout st /\
      exists v, In v l /\ (forall s, v <> VStr s) /\ value_split v = Raise e
  end.
Proof.
  induction l as [|v l IH]; simpl; intros st; [reflexivity|].
  destruct v as [s| |].
  - rewrite loop_body_string. destruct (Py.split s) eqn:E.
    + exists s. simpl. auto.
    + specialize (IH (mkState (cleaned_authors st ++ name_keys U s)
                              (stdout st))).
      destruct (for_loop U l _) as [st'|st'|e st']; simpl in IH.
      * exact IH.
      * destruct IH as (s' & I & W & O). exists s'. auto.
      * destruct IH as (O & v & I & N & V). split; [exact O|].
        exists v. auto.
  - simpl. split; [reflexivity|]. exists VNone.
    split; [now left|]. split; [discriminate | reflexivity].
  - simpl. split; [reflexivity|]. exists VNaN.
    split; [now left|]. split; [discriminate | reflexivity].
Qed.

(** X6: on a list of strings and missing values ([None], [nan]) the
    only exception that leaves [clean_author_names] is the
    [AttributeError] of calling [split] on an element that is not a
    string; nothing has been printed when it does. *)
Theorem clean_author_names_raises_only_on_non_string :
  forall U l e,
    returned (clean_author_names U l) = Raise e ->
    printed (clean_author_names U l) = [] /\
    exists v m,
      In v l /\ (forall s, v <> VStr s) /\
      value_split v = Raise e /\ e = AttributeError m.
Proof.
  intros U l e H. unfold clean_author_names in *.
  pose proof (for_loop_ends U l (mkState [] [])) as E.
  destruct (for_loop U l (mkState [] [])) as [st|st|e' st]; simpl in *;
    try discriminate.
  inversion H; subst e'. destruct E as (O & v & I & N & V).
  split; [exact O|]. destruct v as [s| |]; [now destruct (N s) | |];
    simpl in V; inversion V; subst; eauto 8.
Qed.

Lemma clean_author_names_raises_only_on_non_string_witness :
  returned (clean_author_names ucd_sample [VStr (u "Doe J."); VNaN]) =
    Raise (AttributeError (u "'float' object has no attribute 'split'")) /\
  printed (clean_author_names ucd_sample [VStr (u "Doe J."); VNaN]) = [] /\
  exists v m,
    In v [VStr (u "Doe J."); VNaN] /\ (forall s, v <> VStr s) /\
    value_split v =
      Raise (AttributeError (u "'float' object has no attribute 'split'")) /\
    AttributeError (u "'float' object has no attribute 'split'") =
      AttributeError m.
Proof.
  split; [reflexivity|].
  exact (clean_author_names_raises_only_on_non_string ucd_sample
           [VStr (u "Doe J."); VNaN] _ eq_refl).
Defined.

(** X7: on a list of strings and missing values one call prints at most
    one diagnostic, and it is always the one of a wordless string of the
    list: [list index out of range] followed by the name.  The other
    [IndexError], of taking the first character of an empty second word,
    never occurs. *)
Theorem clean_author_names_prints_at_most_once :
  forall U l,
    printed (clean_author_names U l) = [] \/
    exists s,
      In (VStr s) l /\ Py.split s = [] /\
      printed (clean_author_names U l) =
        [u "list index out of range"; u "Error: " ++ s].
Proof.
  intros U l. unfold clean_author_names.
  pose proof (for_loop_ends U l (mkState [] [])) as E.
  destruct (for_loop U l (mkState [] [])) as [st|st|e st]; simpl in *.
  - now left.
  - right. destruct E as (s & I & W & O). exists s. auto.
  - left. tauto.
Qed.

(** *** Letter case of ASCII names *)

Lemma flush_map f cur : Py.flush (map f cur) = map (map f) (Py.flush cur).
Proof. now destruct cur. Qed.

Lemma split_ws_ascii_lower s : forall cur,
  Py.split_ws (Py.ascii_lower cur) (Py.ascii_lower s) =
  map Py.ascii_lower (Py.split_ws cur s).
Proof.
  unfold Py.ascii_lower.
  induction s as [|c r IH]; simpl; intros cur.
  - apply flush_map.
  - rewrite isspace_ascii_lower_char. destruct (Py.isspace c).
    + rewrite map_app, flush_map. f_equal. apply (IH []).
    + rewrite <- IH. f_equal. now rewrite map_app.
Qed.

(** Lower-casing an ASCII name lower-cases its words. *)
Lemma split_ascii_lower s :
  Py.split (Py.ascii_lower s) = map Py.ascii_lower (Py.split s).
Proof. apply (split_ws_ascii_lower s []). Qed.

Lemma flush_ascii cur :
  Py.is_ascii cur = true ->
  Forall (fun t => Py.is_ascii t = true) (Py.flush cur).
Proof. destruct cur; simpl; intros H; repeat constructor; exact H. Qed.

Lemma split_ws_ascii s : forall cur,
  Py.is_ascii cur = true -> Py.is_ascii s = true ->
  Forall (fun t => Py.is_ascii t = true) (Py.split_ws cur s).
Proof.
  induction s as [|c r IH]; simpl; intros cur Hc Hs.
  - now apply flush_ascii.
  - apply andb_true_iff in Hs. destruct Hs as [Ac Ar].
    destruct (Py.isspace c).
    + apply Forall_app. split; [now apply flush_ascii | now apply IH].
    + apply IH; [|exact Ar]. rewrite is_ascii_app, Hc. simpl.
      now rewrite Ac.
Qed.

(** The words of an ASCII name are ASCII. *)
Lemma split_ascii s :
  Py.is_ascii s = true -> Forall (fun t => Py.is_ascii t = true) (Py.split s).
Proof. intros H. now apply split_ws_ascii. Qed.

(** The keys of an ASCII name: ASCII, and computed without the tables. *)
Lemma name_keys_ascii U s :
  Py.is_ascii s = true ->
  name_keys U s =
  match Py.split s with
  | t0 :: (c :: _) :: _ => [Py.ascii_lower (t0 ++ [c])]
  | _ => []
  end /\
  Forall (fun k => Py.is_ascii k = true /\ Py.lower U k = k /\ k <> [])
         (name_keys U s).
Proof.
  intros A. unfold name_keys. pose proof (split_ascii s A) as F.
  destruct (Py.split s) as [|t0 [|t1 more]] eqn:E;
    try (split; [reflexivity | constructor]).
  destruct (second_word_has_initial _ _ _ _ E) as (c & r & -> & W & Hc).
  inversion F as [|? ? A0 F']; subst. inversion F' as [|? ? A1 _]; subst.
  assert (Ax : Py.is_ascii (t0 ++ [c]) = true).
  { rewrite is_ascii_app, A0. simpl in *. apply andb_true_iff in A1.
    destruct A1 as [-> _]. reflexivity. }
  assert (K : canonical_key U t0 c = Py.ascii_lower (t0 ++ [c])).
  { unfold canonical_key. rewrite (lower_ascii U _ Ax).
    apply replace_absent. unfold Py.ascii_lower. rewrite in_map_iff.
    intros (d & Ed & Id). apply ascii_lower_char_space in Ed. subst d.
    exact (word_snoc_no_space _ _ W Hc Id). }
  rewrite K. split; [reflexivity|]. constructor; [|constructor].
  split; [now rewrite is_ascii_lower|]. split.
  - rewrite lower_ascii by now rewrite is_ascii_lower.
    apply ascii_lower_idem.
  - destruct t0; discriminate.
Qed.

Lemma name_keys_ascii_lower U s :
  Py.is_ascii s = true -> name_keys U (Py.ascii_lower s) = name_keys U s.
Proof.
  intros A.
  assert (A' : Py.is_ascii (Py.ascii_lower s) = true)
    by now rewrite is_ascii_lower.
  rewrite (proj1 (name_keys_ascii U _ A)), (proj1 (name_keys_ascii U _ A')).
  rewrite split_ascii_lower.
  destruct (Py.split s) as [|t0 [|[|c r] more]]; simpl; try reflexivity.
  f_equal. unfold Py.ascii_lower. rewrite !map_app, map_map. simpl.
  rewrite ascii_lower_char_idem. f_equal. apply map_ext.
  apply ascii_lower_char_idem.
Qed.

Lemma wordless_ascii_lower s :
  Py.split (Py.ascii_lower s) = [] <-> Py.split s = [].
Proof.
  rewrite split_ascii_lower. destruct (Py.split s); simpl; split; congruence.
Qed.

Lemma until_wordless_keys_same_case U l1 l2 :
  Forall2 (fun a b => Py.is_ascii a = true /\ Py.is_ascii b = true /\
                      Py.lower U a = Py.lower U b) l1 l2 ->
  flat_map (name_keys U) (until_wordless l1) =
  flat_map (name_keys U) (until_wordless l2).
Proof.
  induction 1 as [|a b l1 l2 (Aa & Ab & E) _ IH]; [reflexivity|]. simpl.
  rewrite (lower_ascii U a Aa), (lower_ascii U b Ab) in E.
  assert (K : name_keys U a = name_keys U b).
  { rewrite <- (name_keys_ascii_lower U a Aa), E.
    now apply name_keys_ascii_lower. }
  assert (W : Py.split a = [] <-> Py.split b = [])
    by now rewrite <- (wordless_ascii_lower a), E, wordless_ascii_lower.
  destruct (Py.split a) eqn:Ea; destruct (Py.split b) eqn:Eb; simpl.
  - reflexivity.
  - discriminate (proj1 W eq_refl).
  - discriminate (proj2 W eq_refl).
  - now rewrite K, IH.
Qed.

(** X8: the letter case of ASCII names has no bearing on the keys: two
    lists of strings of ASCII characters that agree name by name once
    lower-cased give the same returned list.  (The diagnostic, which
    quotes the name, may differ.) *)
Theorem clean_author_names_case_insensitive :
  forall U (l1 l2 : list str),
    Forall2 (fun a b => Py.is_ascii a = true /\ Py.is_ascii b = true /\
                        Py.lower U a = Py.lower U b) l1 l2 ->
    returned (clean_author_names U (map VStr l1)) =
    returned (clean_author_names U (map VStr l2)).
Proof.
  intros U l1 l2 H. unfold clean_author_names.
  rewrite !for_loop_strings_any, (until_wordless_keys_same_case _ _ _ H).
  destruct (first_wordless l1); destruct (first_wordless l2); reflexivity.
Qed.

Lemma clean_author_names_case_insensitive_witness :
  Forall2 (fun a b => Py.is_ascii a = true /\ Py.is_ascii b = true /\
                      Py.lower ucd_sample a = Py.lower ucd_sample b)
          [u "DOE J."; u "Smith j."] [u "doe j."; u "SMITH J."] /\
  returned (clean_author_names ucd_sample
              (map VStr [u "DOE J."; u "Smith j."])) =
  returned (clean_author_names ucd_sample
              (map VStr [u "doe j."; u "SMITH J."])).
Proof.
  assert (H : Forall2 (fun a b => Py.is_ascii a = true /\
                                  Py.is_ascii b = true /\
                                  Py.lower ucd_sample a = Py.lower ucd_sample b)
                      [u "DOE J."; u "Smith j."] [u "doe j."; u "SMITH J."])
    by (repeat constructor).
  split; [exact H|].
  exact (clean_author_names_case_insensitive ucd_sample _ _ H).
Defined.

(* ================================================================== *)
(** ** create_author_count_dataframe: further properties               *)
(* ================================================================== *)

(** The second loop stops at the first empty key. *)
Lemma format_loop_empty_key U (items : dict) : forall acc,
  In [] (dict_keys items) ->
  format_loop U items acc = Raise (IndexError (u "string index out of range")).
Proof.
  induction items as [|[k v] items IH]; simpl; intros acc H; [tauto|].
  destruct (str_dec k []) as [->|N]; [reflexivity|].
  destruct (format_name_ok U k N) as [n ->]. simpl. apply IH.
  destruct H; [congruence | assumption].
Qed.

Lemma create_author_count_dataframe_empty U (l : list str) :
  In [] l ->
  create_author_count_dataframe U l =
  Raise (IndexError (u "string index out of range")).
Proof.
  intros H. unfold create_author_count_dataframe.
  rewrite format_loop_empty_key; [reflexivity|].
  rewrite count_names_table, dict_keys_table. now apply in_first_seen.
Qed.

Lemma create_author_count_dataframe_returns U (l : list str) df :
  create_author_count_dataframe U l = Ok df ->
  Forall (fun k => k <> []) l.
Proof.
  intros E. apply Forall_forall. intros k Hk ->.
  rewrite (create_author_count_dataframe_empty U l Hk) in E. discriminate.
Qed.

(** The rows of the returned table, key by key. *)
Lemma create_author_count_dataframe_table U (l : list str) df :
  create_author_count_dataframe U l = Ok df ->
  rows df = map (fun k => (occurrences k l, display_name U k)) (first_seen l).
Proof.
  intros E.
  destruct (create_author_count_dataframe_ok U l
              (create_author_count_dataframe_returns U l df E))
    as (names & E' & F).
  rewrite E' in E. inversion E; subst df. unfold rows. simpl. clear E E'.
  induction F as [|k n K ns Hk _ IH]; [reflexivity|]. cbn [map combine].
  f_equal; [|exact IH]. unfold display_name. now rewrite Hk.
Qed.

(** X9: a list that holds the empty string anywhere yields no table:
    indexing the last character of the empty key raises [IndexError], and
    nothing catches it. *)
Theorem create_author_count_dataframe_empty_key :
  forall U (pre post : list str),
    create_author_count_dataframe U (pre ++ [] :: post) =
    Raise (IndexError (u "string index out of range")).
Proof.
  intros U pre post. apply create_author_count_dataframe_empty.
  apply in_elt.
Qed.

(** X10: the order of the input decides the order of the rows and
    nothing else: when the function returns a table for a list, it
    returns one for every rearrangement of the list, with the same rows
    up to their order. *)
Theorem create_author_count_dataframe_permutation :
  forall U (l l' : list str) df,
    Permutation l l' ->
    create_author_count_dataframe U l = Ok df ->
    exists df',
      create_author_count_dataframe U l' = Ok df' /\
      Permutation (rows df) (rows df').
Proof.
  intros U l l' df P E.
  pose proof (create_author_count_dataframe_returns U l df E) as Hne.
  assert (Hne' : Forall (fun k : str => k <> []) l').
  { apply Forall_forall. intros k Hk.
    apply (proj1 (Forall_forall _ _) Hne).
    apply (Permutation_in _ (Permutation_sym P) Hk). }
  destruct (create_author_count_dataframe_ok U l' Hne') as (names & E' & _).
  eexists. split; [exact E'|].
  rewrite (create_author_count_dataframe_table _ _ _ E),
          (create_author_count_dataframe_table _ _ _ E').
  assert (PK : Permutation (first_seen l) (first_seen l')).
  { apply NoDup_Permutation; try apply NoDup_first_seen.
    intros k. rewrite !in_first_seen.
    split; apply Permutation_in; [exact P | exact (Permutation_sym P)]. }
  rewrite (map_ext (fun k => (occurrences k l, display_name U k))
                   (fun k => (occurrences k l', display_name U k))).
  - now apply Permutation_map.
  - intros k. unfold occurrences.
    now rewrite (proj1 (Permutation_count_occ str_dec l l') P k).
Qed.

Lemma create_author_count_dataframe_permutation_witness :
  Permutation [u "b"; u "a"; u "b"] [u "b"; u "b"; u "a"] /\
  create_author_count_dataframe ucd_sample [u "b"; u "a"; u "b"] =
    Ok (mkDataFrame [2%Z; 1%Z] [u "B. "; u "A. "]) /\
  exists df',
    create_author_count_dataframe ucd_sample [u "b"; u "b"; u "a"] = Ok df' /\
    Permutation (rows (mkDataFrame [2%Z; 1%Z] [u "B. "; u "A. "])) (rows df').
Proof.
  assert (P : Permutation [u "b"; u "a"; u "b"] [u "b"; u "b"; u "a"])
    by (apply perm_skip, perm_swap).
  split; [exact P|]. split; [reflexivity|].
  exact (create_author_count_dataframe_permutation ucd_sample
           [u "b"; u "a"; u "b"] [u "b"; u "b"; u "a"]
           (mkDataFrame [2%Z; 1%Z] [u "B. "; u "A. "]) P eq_refl).
Defined.

(** X11: in a returned table every count is at least one, the two
    columns are of equal length, and there are no more rows than the
    input has keys. *)
Theorem create_author_count_dataframe_counts_positive :
  forall U (l : list str) df,
    create_author_count_dataframe U l = Ok df ->
    Forall (fun c => (1 <= c)%Z) (Count df) /\
    length (Count df) = length (Name df) /\
    (length (Count df) <= length l)%nat.
Proof.
  intros U l df E.
  destruct (create_author_count_dataframe_ok U l
              (create_author_count_dataframe_returns U l df E))
    as (names & E' & F).
  rewrite E' in E. inversion E; subst df. simpl. clear E E'.
  split; [|split].
  - apply Forall_forall. intros c Hc. apply in_map_iff in Hc.
    destruct Hc as (k & <- & Hk). apply occurrences_present.
    now apply in_first_seen.
  - rewrite length_map. apply (Forall2_length_eq _ _ _ F).
  - rewrite length_map. apply first_seen_length.
Qed.

Lemma create_author_count_dataframe_counts_positive_witness :
  create_author_count_dataframe ucd_sample [u "doej"; u "doej"] =
    Ok (mkDataFrame [2%Z] [u "J. Doe"]) /\
  Forall (fun c => (1 <= c)%Z) (Count (mkDataFrame [2%Z] [u "J. Doe"])) /\
  length (Count (mkDataFrame [2%Z] [u "J. Doe"])) =
    length (Name (mkDataFrame [2%Z] [u "J. Doe"])) /\
  (length (Count (mkDataFrame [2%Z] [u "J. Doe"]))
     <= length [u "doej"; u "doej"])%nat.
Proof.
  split; [reflexivity|].
  exact (create_author_count_dataframe_counts_positive ucd_sample
           [u "doej"; u "doej"] (mkDataFrame [2%Z] [u "J. Doe"]) eq_refl).
Defined.

(** *** Letter case of ASCII keys *)

(** The display name does not tell the letter case of an ASCII key. *)
Lemma format_name_ascii_lower U k :
  Py.is_ascii k = true -> format_name U (Py.ascii_lower k) = format_name U k.
Proof.
  intros A. destruct k as [|d k]; [reflexivity|].
  destruct (str_snoc_inv (d :: k)) as (body & c & E); [discriminate|].
  rewrite E in *. rewrite is_ascii_app in A. apply andb_true_iff in A.
  destruct A as [Ab Ac]. unfold Py.ascii_lower. rewrite map_app. cbn [map].
  rewrite !format_name_snoc. fold (Py.ascii_lower body).
  assert (Ac' : Py.is_ascii [Py.ascii_lower_char c] = true).
  { cbn [Py.is_ascii forallb] in *. now rewrite is_ascii_lower_char. }
  rewrite (upper_ascii U _ Ac'), (upper_ascii U _ Ac).
  rewrite (capitalize_ascii U body Ab).
  rewrite capitalize_ascii by now rewrite is_ascii_lower.
  cbn [Py.ascii_upper map].
  now rewrite ascii_upper_lower_char, ascii_capitalize_lower.
Qed.

(** X12: ASCII keys that differ in letter case only are counted apart
    and yet shown alike: two distinct non-empty keys of ASCII characters
    with the same lower-casing give two rows, each of count one, with one
    and the same display name. *)
Theorem create_author_count_dataframe_case_collision :
  forall U (k1 k2 : str),
    k1 <> k2 -> k1 <> [] ->
    Py.is_ascii k1 = true -> Py.is_ascii k2 = true ->
    Py.lower U k1 = Py.lower U k2 ->
    exists n,
      create_author_count_dataframe U [k1; k2] =
      Ok (mkDataFrame [1%Z; 1%Z] [n; n]).
Proof.
  intros U k1 k2 N Z A1 A2 L.
  rewrite (lower_ascii U k1 A1), (lower_ascii U k2 A2) in L.
  destruct (format_name_ok U k1 Z) as [n Hn]. exists n.
  assert (Hn2 : format_name U k2 = Ok n).
  { rewrite <- (format_name_ascii_lower U k2 A2), <- L.
    now rewrite format_name_ascii_lower. }
  unfold create_author_count_dataframe, count_names, count_step. simpl.
  destruct (str_eqb_spec k1 k2) as [E|_]; [congruence|].
  simpl. now rewrite Hn, Hn2.
Qed.

Lemma create_author_count_dataframe_case_collision_witness :
  u "doej" <> u "Doej" /\ u "doej" <> [] /\
  Py.is_ascii (u "doej") = true /\ Py.is_ascii (u "Doej") = true /\
  Py.lower ucd_sample (u "doej") = Py.lower ucd_sample (u "Doej") /\
  exists n,
    create_author_count_dataframe ucd_sample [u "doej"; u "Doej"] =
    Ok (mkDataFrame [1%Z; 1%Z] [n; n]).
Proof.
  assert (N : u "doej" <> u "Doej") by discriminate.
  assert (Z : u "doej" <> []) by discriminate.
  split; [exact N|]. split; [exact Z|].
  split; [reflexivity|]. split; [reflexivity|]. split; [reflexivity|].
  exact (create_author_count_dataframe_case_collision ucd_sample
           (u "doej") (u "Doej") N Z eq_refl eq_refl eq_refl).
Defined.

(* ================================================================== *)
(** ** The three functions in sequence                                 *)
(* ================================================================== *)

(** Where [lower()] keeps the text, no key is empty. *)
Lemma name_keys_nonempty U s :
  lower_keeps U -> Forall (fun k => k <> []) (name_keys U s).
Proof.
  intros K. apply name_keys_all. intros t0 c W Hc.
  destruct (canonical_key_kept U t0 c K W Hc) as (_ & L & _).
  intros Z. rewrite Z in L. simpl in L. lia.
Qed.

(** X13: whatever list [clean_author_names] returns,
    [create_author_count_dataframe] accepts: it raises nothing on it and
    returns a table whose counts add up to the number of keys, with no
    more rows than the first list had elements.  This rests on [lower()]
    letting no character vanish and bringing in no space. *)
Theorem clean_then_count_never_raises :
  forall U l ks,
    lower_keeps U ->
    returned (clean_author_names U l) = Ok ks ->
    exists df,
      create_author_count_dataframe U ks = Ok df /\
      sum_Z (Count df) = Z.of_nat (length ks) /\
      (length (rows df) <= length l)%nat.
Proof.
  intros U l ks K H.
  destruct (clean_author_names_returned U (fun k => k <> []) l ks) as [R L];
    [intros s _; now apply name_keys_nonempty | exact H |].
  destruct (create_author_count_dataframe_ok U ks R) as (names & E & F).
  eexists. split; [exact E|]. simpl. split.
  - rewrite <- (count_names_sum ks), count_names_table, dict_values_table.
    reflexivity.
  - unfold rows. simpl. rewrite length_combine, length_map.
    pose proof (first_seen_length ks). lia.
Qed.

Lemma clean_then_count_never_raises_witness :
  lower_keeps ucd_sample /\
  returned (clean_author_names ucd_sample
              [VStr (u "Doe J."); VStr (u "X"); VStr (u "Doe John")]) =
    Ok [u "doej"; u "doej"] /\
  exists df,
    create_author_count_dataframe ucd_sample [u "doej"; u "doej"] = Ok df /\
    sum_Z (Count df) = Z.of_nat (length [u "doej"; u "doej"]) /\
    (length (rows df)
       <= length [VStr (u "Doe J."); VStr (u "X"); VStr (u "Doe John")])%nat.
Proof.
  split; [exact ucd_sample_lower_keeps|]. split; [reflexivity|].
  exact (clean_then_count_never_raises ucd_sample
           [VStr (u "Doe J."); VStr (u "X"); VStr (u "Doe John")]
           [u "doej"; u "doej"] ucd_sample_lower_keeps eq_refl).
Defined.

(** X14: on a column of strings the three functions in sequence
    never raise: the names extracted are cleaned into a list of keys, and
    the keys are counted into a table.  This rests on [lower()] letting no
    character vanish and bringing in no space. *)
Theorem extract_clean_count_on_strings :
  forall U (column : list str),
    lower_keeps U ->
    exists ks df,
      returned (clean_author_names U (map VStr (extract_authors column))) =
        Ok ks /\
      create_author_count_dataframe U ks = Ok df /\
      sum_Z (Count df) = Z.of_nat (length ks) /\
      (length ks <= length (extract_authors column))%nat.
Proof.
  intros U column K.
  set (names := extract_authors column).
  exists (flat_map (name_keys U) (until_wordless names)).
  assert (E : returned (clean_author_names U (map VStr names)) =
              Ok (flat_map (name_keys U) (until_wordless names))).
  { unfold clean_author_names. rewrite for_loop_strings_any.
    destruct (first_wordless names); reflexivity. }
  destruct (clean_author_names_returned U (fun k => k <> []) _ _
              (fun s _ => name_keys_nonempty U s K) E) as [R L].
  destruct (create_author_count_dataframe_ok U _ R) as (ns & E' & _).
  eexists. split; [exact E|]. split; [exact E'|]. simpl. split.
  - rewrite <- (count_names_sum (flat_map (name_keys U) (until_wordless names))),
            count_names_table, dict_values_table.
    reflexivity.
  - now rewrite length_map in L.
Qed.

Lemma extract_clean_count_on_strings_witness :
  lower_keeps ucd_sample /\
  exists ks df,
    returned (clean_author_names ucd_sample
                (map VStr (extract_authors
                             [u "Doe J., Doe " ++ [201%N] ++ u "mile"; []]))) =
      Ok ks /\
    create_author_count_dataframe ucd_sample ks = Ok df /\
    sum_Z (Count df) = Z.of_nat (length ks) /\
    (length ks <=
     length (extract_authors
               [u "Doe J., Doe " ++ [201%N] ++ u "mile"; []]))%nat.
Proof.
  split; [exact ucd_sample_lower_keeps|].
  exact (extract_clean_count_on_strings ucd_sample
           [u "Doe J., Doe " ++ [201%N] ++ u "mile"; []]
           ucd_sample_lower_keeps).
Defined.

(** X15: a cell of the column that holds no word and no delimiter --
    an empty cell, or one of blanks of whatever kind -- comes out of
    [extract_authors] as a name of its own, and [clean_author_names] stops
    there: when the names of the cells before it are processed without
    [break], their keys are all that is returned, and the names of every
    later cell are lost. *)
Theorem blank_cell_stops_cleaning :
  forall U before cell after st,
    Py.split cell = [] ->
    Py.count (u ", ") cell = 0 ->
    for_loop U (map VStr (extract_authors before)) (mkState [] []) =
      Normal st ->
    clean_author_names U
      (map VStr (extract_authors (before ++ cell :: after))) =
    mkOutcome (Ok (cleaned_authors st))
              [u "list index out of range"; u "Error: " ++ cell].
Proof.
  intros U before cell after st W D Hb.
  pose proof (for_loop_normal_silent _ _ _ _ Hb) as O. simpl in O.
  rewrite extract_authors_app, extract_authors_cons.
  unfold Py.split_sep at 1. rewrite (split_from_plain _ _ _ D).
  rewrite map_app. unfold clean_author_names.
  rewrite for_loop_app, Hb. cbn [app map for_loop].
  now rewrite (loop_body_no_word _ _ _ W), O.
Qed.

Lemma blank_cell_stops_cleaning_witness :
  Py.split [160%N] = [] /\
  Py.count (u ", ") [160%N] = 0 /\
  for_loop ucd_sample (map VStr (extract_authors [u "Doe J., Smith A."]))
           (mkState [] []) =
    Normal (mkState [u "doej"; u "smitha"] []) /\
  clean_author_names ucd_sample
    (map VStr (extract_authors
                 ([u "Doe J., Smith A."] ++ [160%N] :: [u "Brown B."]))) =
  mkOutcome (Ok [u "doej"; u "smitha"])
            [u "list index out of range"; u "Error: " ++ [160%N]].
Proof.
  split; [reflexivity|]. split; [reflexivity|]. split; [reflexivity|].
  exact (blank_cell_stops_cleaning ucd_sample
           [u "Doe J., Smith A."] [160%N] [u "Brown B."]
           (mkState [u "doej"; u "smitha"] []) eq_refl eq_refl eq_refl).
Defined.

Lemma starts_with_comma_space_app c r :
  Py.starts_with (u ", ") ((c :: r) ++ u ", ") =
  Py.starts_with (u ", ") (c :: r).
Proof.
  change (u ", ") with [44%N; 32%N].
  destruct r as [|d r]; cbn [app Py.starts_with].
  - destruct (N.eqb_spec 44 c); [|reflexivity]. reflexivity.
  - now rewrite !andb_true_r.
Qed.

(** A delimiter at the very end of a field adds one empty piece. *)
Lemma split_from_trailing s : forall skip cur,
  (skip <= length s)%nat ->
  Py.split_from (u ", ") skip cur (s ++ u ", ") =
  Py.split_from (u ", ") skip cur s ++ [[]].
Proof.
  induction s as [|c r IH]; intros skip cur Hk.
  - simpl in Hk. assert (skip = 0) by lia. subst. reflexivity.
  - change ((c :: r) ++ u ", ") with (c :: (r ++ u ", ")).
    cbn [Py.split_from]. destruct skip as [|k].
    + change (c :: (r ++ u ", ")) with ((c :: r) ++ u ", ").
      rewrite starts_with_comma_space_app.
      destruct (Py.starts_with (u ", ") (c :: r)) eqn:P.
      * pose proof (starts_with_length _ _ P) as L. simpl in L.
        rewrite IH by (simpl; lia). reflexivity.
      * apply IH. lia.
    + apply IH. simpl in Hk. lia.
Qed.

(** X16: a cell that ends in the delimiter yields, after its other
    names, the empty name; [clean_author_names] breaks on it.  When the
    loop gets through the names before it, the keys of those names are
    returned and the names of every later cell are lost. *)
Theorem trailing_delimiter_stops_cleaning :
  forall U before cell after st,
    for_loop U (map VStr (extract_authors (before ++ [cell])))
             (mkState [] []) = Normal st ->
    clean_author_names U
      (map VStr (extract_authors (before ++ (cell ++ u ", ") :: after))) =
    mkOutcome (Ok (cleaned_authors st))
              [u "list index out of range"; u "Error: "].
Proof.
  intros U before cell after st Hb.
  pose proof (for_loop_normal_silent _ _ _ _ Hb) as O. simpl in O.
  rewrite extract_authors_app, extract_authors_cons.
  unfold Py.split_sep at 1. rewrite split_from_trailing by lia.
  fold (Py.split_sep (u ", ") cell).
  rewrite extract_authors_app, extract_authors_cons in Hb.
  change (extract_authors []) with (@nil str) in Hb.
  rewrite app_nil_r in Hb.
  assert (A : extract_authors before ++
              (Py.split_sep (u ", ") cell ++ [[]]) ++ extract_authors after =
              (extract_authors before ++ Py.split_sep (u ", ") cell) ++
              [] :: extract_authors after)
    by (rewrite <- !app_assoc; reflexivity).
  rewrite A, map_app. unfold clean_author_names.
  rewrite for_loop_app, Hb. cbn [map for_loop].
  rewrite (loop_body_no_word U [] st eq_refl), O. reflexivity.
Qed.

Lemma trailing_delimiter_stops_cleaning_witness :
  for_loop ucd_sample
    (map VStr (extract_authors ([u "Doe J."] ++ [u "Smith A., Brown B."])))
    (mkState [] []) =
    Normal (mkState [u "doej"; u "smitha"; u "brownb"] []) /\
  clean_author_names ucd_sample
    (map VStr (extract_authors
       ([u "Doe J."] ++ (u "Smith A., Brown B." ++ u ", ") :: [u "Jones C."]))) =
  mkOutcome (Ok [u "doej"; u "smitha"; u "brownb"])
            [u "list index out of range"; u "Error: "].
Proof.
  split; [reflexivity|].
  exact (trailing_delimiter_stops_cleaning ucd_sample
           [u "Doe J."] (u "Smith A., Brown B.") [u "Jones C."]
           (mkState [u "doej"; u "smitha"; u "brownb"] []) eq_refl).
Defined.

(** X17: in the table counted from a list that [clean_author_names]
    returned for names of ASCII characters, no two rows bear the same
    display name. *)
Theorem cleaned_names_display_apart :
  forall U l ks df,
    Forall ascii_name l ->
    returned (clean_author_names U l) = Ok ks ->
    create_author_count_dataframe U ks = Ok df ->
    NoDup (Name df).
Proof.
  intros U l ks df A H E.
  destruct (clean_author_names_returned U
              (fun k => Py.is_ascii k = true /\ Py.lower U k = k /\ k <> [])
              l ks) as [R _]; [|exact H|].
  { intros s I. apply (proj1 (Forall_forall _ _) A) in I.
    destruct I as (s' & Es & As). inversion Es; subst s'.
    apply (name_keys_ascii U s As). }
  assert (Hne : Forall (fun k : str => k <> []) ks)
    by (apply (Forall_impl _ (P := fun k => Py.is_ascii k = true /\
                                Py.lower U k = k /\ k <> [])); [tauto | exact R]).
  destruct (create_author_count_dataframe_ok U ks Hne) as (names & E' & F).
  rewrite E' in E. inversion E; subst df. simpl.
  apply (display_names_distinct U (first_seen ks));
    [|apply NoDup_first_seen|exact F].
  apply Forall_forall. intros k Hk. apply (proj1 (in_first_seen ks k)) in Hk.
  destruct (proj1 (Forall_forall _ _) R k Hk) as (Ak & Lk & _). now split.
Qed.

Lemma cleaned_names_display_apart_witness :
  Forall ascii_name
         [VStr (u "Doe J."); VStr (u "DOE Jane"); VStr (u "Doe A.")] /\
  returned (clean_author_names ucd_sample
              [VStr (u "Doe J."); VStr (u "DOE Jane"); VStr (u "Doe A.")]) =
    Ok [u "doej"; u "doej"; u "doea"] /\
  create_author_count_dataframe ucd_sample [u "doej"; u "doej"; u "doea"] =
    Ok (mkDataFrame [2%Z; 1%Z] [u "J. Doe"; u "A. Doe"]) /\
  NoDup (Name (mkDataFrame [2%Z; 1%Z] [u "J. Doe"; u "A. Doe"])).
Proof.
  assert (A : Forall ascii_name
                [VStr (u "Doe J."); VStr (u "DOE Jane"); VStr (u "Doe A.")])
    by (repeat constructor; eexists; split; reflexivity).
  split; [exact A|]. split; [reflexivity|]. split; [reflexivity|].
  exact (cleaned_names_display_apart ucd_sample
           [VStr (u "Doe J."); VStr (u "DOE Jane"); VStr (u "Doe A.")]
           [u "doej"; u "doej"; u "doea"]
           (mkDataFrame [2%Z; 1%Z] [u "J. Doe"; u "A. Doe"])
           A eq_refl eq_refl).
Defined.
